(** * TimeClock: the business rules of the workforce time-tracking application

    A shallow embedding of three pieces of the repository:

    - [ScheduleView] and [DaySchedule]: [checkScheduleConflicts], the
      grouping by department, the week view and the duration of a shift of
      [src/components/schedule/ScheduleView.tsx];
    - [DepartmentService]: the department service of
      [src/services/DepartmentService.ts], over a datastore with three tables;
    - [TimeEntryContext]: the client-side time-entry state of the
      [TimeEntryProvider] component.

    Identifiers are strings, [Date] values are their time value in
    milliseconds, Prisma [Decimal] values are exact rationals and JavaScript
    numbers are IEEE 754 binary64 values ([spec_float] with precision 53). *)

From Stdlib Require Import ZArith QArith Qcanon Lia.
From Stdlib Require Import Floats.SpecFloat.
From stdpp Require Import gmap strings list fin_maps pretty.

Local Open Scope Z_scope.

(* ===================================================================== *)
(** * Schedule conflict detection *)
(* ===================================================================== *)

Module ScheduleView.

(** A [WorkShift] row; [startTime] and [endTime] are [Date]s, held as their
    time value (milliseconds since the epoch), which is what [<=] and [>]
    compare on [Date] objects. *)
Record WorkShift := mkWorkShift {
  id : string;
  dayOfWeek : Z;
  startTime : Z;
  endTime : Z
}.

Record DepartmentRef := mkDepartmentRef {
  department_id : string;
  department_name : string
}.

(** [ScheduleWithDepartment]: a department's weekly schedule with its shifts
    and the department it belongs to. *)
Record ScheduleWithDepartment := mkSchedule {
  schedules : list WorkShift;
  department : DepartmentRef
}.

(** [WorkShift & { departmentName: string }]. *)
Record NamedShift := mkNamedShift {
  shift : WorkShift;
  departmentName : string
}.

Record Conflict := mkConflict {
  shift1 : NamedShift;
  shift2 : NamedShift
}.

Record ConflictReport := mkReport {
  hasConflict : bool;
  conflicts : list Conflict
}.

#[global] Instance WorkShift_eq_dec : EqDecision WorkShift.
Proof. solve_decision. Defined.
#[global] Instance NamedShift_eq_dec : EqDecision NamedShift.
Proof. solve_decision. Defined.
#[global] Instance Conflict_eq_dec : EqDecision Conflict.
Proof. solve_decision. Defined.

(** The test of lines 43-46:
    [(start1 <= end2 && end1 > start2) || (start2 <= end1 && end2 > start1)]. *)
Definition hasOverlap (start1 end1 start2 end2 : Z) : bool :=
  ((start1 <=? end2) && (end1 >? start2)) ||
  ((start2 <=? end1) && (end2 >? start1)).

(** What the innermost callback pushes for one pair of shifts. *)
Definition compareShifts (schedule1 schedule2 : ScheduleWithDepartment)
    (shift1 shift2 : WorkShift) : list Conflict :=
  if dayOfWeek shift1 =? dayOfWeek shift2 then
    let start1 := startTime shift1 in
    let end1 := endTime shift1 in
    let start2 := startTime shift2 in
    let end2 := endTime shift2 in
    if hasOverlap start1 end1 start2 end2 then
      [ {| shift1 := {| shift := shift1;
                        departmentName := department_name (department schedule1) |};
           shift2 := {| shift := shift2;
                        departmentName := department_name (department schedule2) |} |} ]
    else []
  else [].

(** The body run for one pair of schedules: nothing when both belong to the
    same department, otherwise every shift of the first against every shift
    of the second. *)
Definition compareSchedules (schedule1 schedule2 : ScheduleWithDepartment)
    : list Conflict :=
  if decide (department_id (department schedule1) =
             department_id (department schedule2)) then []
  else
    shift1 ← schedules schedule1;
    shift2 ← schedules schedule2;
    compareShifts schedule1 schedule2 shift1 shift2.

(** [schedules.forEach((schedule1, index) =>
       schedules.slice(index + 1).forEach(schedule2 => ...))]:
    the pushes happen in iteration order, so the final array is the
    concatenation of what each iteration pushes. *)
Definition checkScheduleConflicts (schedules : list ScheduleWithDepartment)
    : ConflictReport :=
  let conflicts :=
    mjoin (imap (fun index schedule1 =>
                   schedule2 ← drop (S index) schedules;
                   compareSchedules schedule1 schedule2) schedules) in
  {| hasConflict := (0 <? length conflicts)%nat; conflicts := conflicts |}.

(** The interval test the specification words: half-open intervals overlap
    iff [start1 < end2] and [start2 < end1]. *)
Definition strictOverlap (start1 end1 start2 end2 : Z) : bool :=
  (start1 <? end2) && (start2 <? end1).

(** Two shifts the detector treats as conflicting. *)
Definition conflicting (a b : WorkShift) : bool :=
  (dayOfWeek a =? dayOfWeek b) &&
  hasOverlap (startTime a) (endTime a) (startTime b) (endTime b).

(** A reported conflict is about the unordered pair [{a, b}]. *)
Definition reportsPair (a b : WorkShift) (c : Conflict) : Prop :=
  (shift (shift1 c) = a ∧ shift (shift2 c) = b) ∨
  (shift (shift1 c) = b ∧ shift (shift2 c) = a).

#[global] Instance reportsPair_dec a b c : Decision (reportsPair a b c).
Proof. unfold reportsPair. apply _. Defined.

(** Every shift of every schedule, in order. *)
Definition allShifts (schedules : list ScheduleWithDepartment) : list WorkShift :=
  schedule ← schedules; ScheduleView.schedules schedule.

(** Where a reported conflict comes from: two schedules of different
    departments, the first earlier in the input than the second, and one
    shift of each. *)
Definition arisesFrom (schedules : list ScheduleWithDepartment) (c : Conflict) : Prop :=
  ∃ (i j : nat) schedule1 schedule2 a b,
    (i < j)%nat ∧
    schedules !! i = Some schedule1 ∧ schedules !! j = Some schedule2 ∧
    department_id (department schedule1) ≠ department_id (department schedule2) ∧
    a ∈ ScheduleView.schedules schedule1 ∧ b ∈ ScheduleView.schedules schedule2 ∧
    conflicting a b = true ∧
    c = {| shift1 := mkNamedShift a (department_name (department schedule1));
           shift2 := mkNamedShift b (department_name (department schedule2)) |}.

(** Scenario of the specification: Monday 2024-01-01 (UTC), shift X in
    department 1 from 09:00 to 13:00, shift Y in department 2 from 12:00 to
    16:00, shift Z in department 2 from 13:00 to 17:00. *)
Definition shiftX := mkWorkShift "x" 1 1704099600000 1704114000000.
Definition shiftY := mkWorkShift "y" 1 1704110400000 1704124800000.
Definition shiftZ := mkWorkShift "z" 1 1704114000000 1704128400000.
Definition dept1 := mkDepartmentRef "d1" "Dept1".
Definition dept2 := mkDepartmentRef "d2" "Dept2".

(** ** The rest of the schedule view *)

Section Grouping.
(** The names under which an object literal [{}] answers with a property
    that it inherits ([constructor], [toString], [__proto__], ...); the
    value of each is truthy and has no [push]. *)
Variable inherited : string → bool.

(** One step of the reduce,
    [const dept = schedule.department.id;
     if (!acc[dept]) acc[dept] = []; acc[dept].push(schedule); return acc],
    on the own properties of [acc].  Under an inherited name no array is
    created, and the call of [push] throws a TypeError: [None]. *)
Definition groupSchedule (acc : gmap string (list ScheduleWithDepartment))
    (schedule : ScheduleWithDepartment)
    : option (gmap string (list ScheduleWithDepartment)) :=
  let dept := department_id (department schedule) in
  match acc !! dept with
  | Some group => Some (<[dept := group ++ [schedule]]> acc)
  | None =>
      if inherited dept then None
      else Some (<[dept := [] ++ [schedule]]> acc)
  end.

(** [schedulesByDepartment]: [schedules.reduce((acc, schedule) => ..., {})],
    the schedules grouped under the id of their department. *)
Definition schedulesByDepartment (schedules : list ScheduleWithDepartment)
    : option (gmap string (list ScheduleWithDepartment)) :=
  foldl (fun acc schedule => acc ≫= fun acc => groupSchedule acc schedule)
        (Some ∅) schedules.

End Grouping.

(** The property names of [Object.prototype], for evaluating the grouping. *)
Definition objectPrototypeNames : list string :=
  [ "constructor"; "hasOwnProperty"; "isPrototypeOf"; "propertyIsEnumerable";
    "toLocaleString"; "toString"; "valueOf"; "__proto__";
    "__defineGetter__"; "__defineSetter__"; "__lookupGetter__"; "__lookupSetter__" ].

Definition inheritedName (name : string) : bool :=
  bool_decide (name ∈ objectPrototypeNames).

(** The label of the tab of a group,
    [deptSchedules[0]?.department?.name || 'Unknown Department']. *)
Definition tabLabel (deptSchedules : list ScheduleWithDepartment) : string :=
  match head deptSchedules with
  | Some first =>
      if decide (department_name (department first) = "") then "Unknown Department"
      else department_name (department first)
  | None => "Unknown Department"
  end.

(** The shifts that [WeeklySchedule] hands to the seven [DaySchedule]s:
    for [idx] from 0 to 6, [schedule.schedules.filter(s => s.dayOfWeek === idx)]. *)
Definition weekDays (schedule : ScheduleWithDepartment) : list (list WorkShift) :=
  (fun idx : Z => filter (fun s => dayOfWeek s = idx) (schedules schedule))
    <$> [0; 1; 2; 3; 4; 5; 6].

End ScheduleView.

(* ===================================================================== *)
(** * JavaScript numbers *)
(* ===================================================================== *)

Module Number.

(** A JavaScript number is an IEEE 754 binary64 value: precision 53,
    exponent of the infinities 1024. *)
Definition number : Type := spec_float.

Definition prec : Z := 53.
Definition emax : Z := 1024.

(** The number denoted by an integer literal or held by an integer-valued
    computation: the integer rounded to nearest, ties to even (exact up to
    [2^53]). *)
Definition ofZ (z : Z) : number := binary_normalize prec emax z 0 false.

Definition zero : number := S754_zero false.

(** [x / y], [x - y] and [x * y]. *)
Definition div (x y : number) : number := SFdiv prec emax x y.
Definition sub (x y : number) : number := SFsub prec emax x y.
Definition mul (x y : number) : number := SFmul prec emax x y.

(** The text that [x.toFixed(2)] produces. *)
Inductive fixed :=
  | Digits (negative : bool) (n : Z)
    (** the decimal numeral of [n / 100] with two fraction digits, after a
        minus sign when [negative] *)
  | General (x : number)
    (** the text of [Number::toString(x)]: taken when [x] is NaN, infinite
        or at least [10^21] in magnitude *).

(** [toFixed(2)] on a finite [x] below [10^21] in magnitude: with [x] the
    exact magnitude, "let n be an integer for which n / 10^2 - x is as close
    to zero as possible; if there are two such n, pick the larger n".  The
    magnitude is [m * 2^e], held as the fraction [num / den]; the integer is
    [floor (100 * num / den + 1/2)]. *)
Definition toFixed2 (x : number) : fixed :=
  match x with
  | S754_zero _ => Digits false 0
  | S754_finite s m e =>
      let num := Zpos m * 2 ^ Z.max e 0 in
      let den := 2 ^ Z.max (- e) 0 in
      if 10 ^ 21 * den <=? num then General x
      else Digits s ((200 * num + den) / (2 * den))
  | _ => General x
  end.

(** [Math.floor(x)]: NaN, the infinities and the zeros are returned as they
    are, and so is a finite number without fraction bits; otherwise the
    largest integer not above [x] (which is [+0] for [0 < x < 1]). *)
Definition floor (x : number) : number :=
  match x with
  | S754_finite s m e =>
      if 0 <=? e then x
      else ofZ ((if s then Zneg m else Zpos m) / 2 ^ (- e))
  | _ => x
  end.

(** [x % y]: NaN when [x] is not finite or [y] is zero, [x] when [y] is
    infinite or [x] is zero; otherwise [x - y * q] for [q] the quotient
    truncated towards zero, computed exactly, with the sign of [x]. *)
Definition rem (x y : number) : number :=
  match x, y with
  | S754_nan, _ | _, S754_nan => S754_nan
  | S754_infinity _, _ => S754_nan
  | _, S754_infinity _ => x
  | _, S754_zero _ => S754_nan
  | S754_zero _, _ => x
  | S754_finite sx mx ex, S754_finite _ my ey =>
      let e := Z.min ex ey in
      let r := Z.rem (Zpos mx * 2 ^ (ex - e)) (Zpos my * 2 ^ (ey - e)) in
      if r =? 0 then S754_zero sx
      else binary_normalize prec emax (if sx then - r else r) e false
  end.

(** [x > y]. *)
Definition gt (x y : number) : bool := SFltb y x.

End Number.

(* ===================================================================== *)
(** * The duration shown for a shift (components/schedule/ScheduleView.tsx) *)
(* ===================================================================== *)

Module DaySchedule.
Import ScheduleView.

(** [parts.join(separator)]. *)
Fixpoint join (separator : string) (parts : list string) : string :=
  match parts with
  | [] => ""
  | [part] => part
  | part :: rest => part +:+ separator +:+ join separator rest
  end.

Section Duration.
(** The text of a number in a template literal, [`${x}`]. *)
Variable toString : Number.number → string.

(** The text after "Shift Duration:" in the tooltip of a shift. *)
Definition shiftDuration (shift : WorkShift) : string :=
  let start := Number.ofZ (startTime shift) in
  let end' := Number.ofZ (endTime shift) in
  let diff := Number.sub end' start in
  let hours :=
    Number.floor
      (Number.div diff
         (Number.mul (Number.mul (Number.ofZ 1000) (Number.ofZ 60)) (Number.ofZ 60))) in
  let minutes :=
    Number.floor
      (Number.div
         (Number.rem diff
            (Number.mul (Number.mul (Number.ofZ 1000) (Number.ofZ 60)) (Number.ofZ 60)))
         (Number.mul (Number.ofZ 1000) (Number.ofZ 60))) in
  let text :=
    join " "
      (filter (fun part : string => part ≠ "")
         [ if Number.gt hours (Number.ofZ 0) then toString hours +:+ "h" else "";
           if Number.gt minutes (Number.ofZ 0) then toString minutes +:+ "m" else "" ]) in
  if decide (text = "") then "0m" else text.

End Duration.

(** For evaluating the scenario: the text of an integer-valued number is
    the decimal numeral of the integer. *)
Definition integerToString (x : Number.number) : string :=
  match x with
  | S754_zero _ => "0"
  | S754_finite s m e =>
      pretty ((if s then Zneg m else Zpos m) * 2 ^ Z.max e 0 / 2 ^ Z.max (- e) 0)
  | S754_infinity s => if s then "-Infinity" else "Infinity"
  | S754_nan => "NaN"
  end.

End DaySchedule.

(* ===================================================================== *)
(** * The department service *)
(* ===================================================================== *)

Module DepartmentService.

(** The global role of a user: [ADMIN], or any other role. *)
Module UserRole.
Inductive t := ADMIN | USER.
#[global] Instance UserRole_eq_dec : EqDecision t.
Proof. solve_decision. Defined.
End UserRole.

(** The role of a member within a department. *)
Module EmployeeDepartmentRole.
Inductive t := MEMBER | MANAGER | ADMIN.
#[global] Instance EmployeeDepartmentRole_eq_dec : EqDecision t.
Proof. solve_decision. Defined.
End EmployeeDepartmentRole.

(** A [Decimal] is held as the exact rational it denotes; [plus] is then
    rational addition.  (decimal.js rounds a result to its working precision,
    20 significant digits unless configured otherwise; rates and their sums
    are taken to stay within it.) *)
Definition Decimal : Type := Qc.

Record User := mkUser {
  user_role : UserRole.t
}.

Record Department := mkDepartment {
  id : string;
  name : string;
  info : option string
}.

(** A membership row; the table is keyed by [(userId, departmentId)], the
    compound unique key [userId_departmentId] of the source. *)
Record EmployeeDepartment := mkEmployeeDepartment {
  role : EmployeeDepartmentRole.t;
  hourlyRate : Decimal;
  position : string
}.

(** [DepartmentViewInterface extends Department]. *)
Record DepartmentViewInterface := mkView {
  department : Department;
  employeeCount : nat;
  totalCost : Number.number
}.

(** The committed content of the datastore. *)
Record Store := mkStore {
  users : gmap string User;
  departments : gmap string Department;
  employeeDepartments : gmap (string * string) EmployeeDepartment
}.

(** Each [return null] of the service, named after the message it logs
    with [console.error] just before:
    - [PermissionDenied]: "Permission denied: ...";
    - [UserNotFound]: "User not found";
    - [DepartmentNotFound]: "Department not found";
    - [EmployeeNotFound]: "Employee not found in department";
    - [StorageError]: the [catch] blocks ("Error creating department:",
      "Error deleting department:", "Error adding employee to department:",
      "Error removing employee from department:"). *)
Inductive Failure :=
  | PermissionDenied
  | UserNotFound
  | DepartmentNotFound
  | EmployeeNotFound
  | StorageError.

Inductive Outcome (A : Type) :=
  | Returned (a : A)
  | Null (why : Failure).
Arguments Returned {A} a.
Arguments Null {A} why.

(** ** Datastore queries

    A query that throws (a Prisma exception) yields [None]. *)

Definition inDepartment (departmentId : string)
    (row : string * string * EmployeeDepartment) : Prop :=
  row.1.2 = departmentId.

#[global] Instance inDepartment_dec departmentId row :
  Decision (inDepartment departmentId row).
Proof. unfold inDepartment. apply _. Defined.

Definition user_findUnique (id : string) (db : Store) : option User :=
  users db !! id.

Definition department_findUnique (id : string) (db : Store) : option Department :=
  departments db !! id.

(** [employeeDepartment.findFirst({ where: { userId, departmentId } })] and
    [employeeDepartment.findUnique({ where: { userId_departmentId } })]:
    at most one row has this key. *)
Definition employeeDepartment_find (userId departmentId : string) (db : Store)
    : option EmployeeDepartment :=
  employeeDepartments db !! (userId, departmentId).

(** [department.create({ data: { name, info } })]: the row gets an id that
    no department has. *)
Definition department_create (name : string) (info : option string) (db : Store)
    : Department * Store :=
  let department := {| id := fresh (dom (departments db)); name := name; info := info |} in
  (department,
   {| users := users db;
      departments := <[id department := department]> (departments db);
      employeeDepartments := employeeDepartments db |}).

(** Modelled from the spec: the Prisma schema, which fixes what deleting a
    department does to its membership rows, is not part of the source; the
    specification assumes that the deletion cascades to them.  Deleting a
    department that does not exist throws. *)
Definition department_delete (id : string) (db : Store) : option (Department * Store) :=
  match departments db !! id with
  | Some department =>
      Some (department,
            {| users := users db;
               departments := delete id (departments db);
               employeeDepartments :=
                 filter (fun row => ¬ inDepartment id row) (employeeDepartments db) |})
  | None => None
  end.

(** [employeeDepartment.update]: throws when the row does not exist. *)
Definition employeeDepartment_update (userId departmentId : string)
    (data : EmployeeDepartment) (db : Store) : option Store :=
  match employeeDepartments db !! (userId, departmentId) with
  | Some _ =>
      Some {| users := users db; departments := departments db;
              employeeDepartments :=
                <[(userId, departmentId) := data]> (employeeDepartments db) |}
  | None => None
  end.

(** [employeeDepartment.create]: throws when a row with the same key exists
    (unique constraint) and when the user or the department that the row
    refers to does not exist (the relations [employee] and [department] of
    the row, which the queries of the service load with [include]). *)
Definition employeeDepartment_create (userId departmentId : string)
    (data : EmployeeDepartment) (db : Store) : option Store :=
  match employeeDepartments db !! (userId, departmentId),
        users db !! userId, departments db !! departmentId with
  | None, Some _, Some _ =>
      Some {| users := users db; departments := departments db;
              employeeDepartments :=
                <[(userId, departmentId) := data]> (employeeDepartments db) |}
  | _, _, _ => None
  end.

(** [employeeDepartment.delete]: throws when the row does not exist. *)
Definition employeeDepartment_delete (userId departmentId : string) (db : Store)
    : option Store :=
  match employeeDepartments db !! (userId, departmentId) with
  | Some _ =>
      Some {| users := users db; departments := departments db;
              employeeDepartments := delete (userId, departmentId) (employeeDepartments db) |}
  | None => None
  end.

(** [employeeDepartment.count({ where: { departmentId } })]. *)
Definition employeeDepartment_count (departmentId : string) (db : Store) : nat :=
  size (filter (inDepartment departmentId) (employeeDepartments db)).

(** [employeeDepartment.findMany({ where: { departmentId } })]. *)
Definition employeeDepartment_findMany (departmentId : string) (db : Store)
    : list EmployeeDepartment :=
  (map_to_list (filter (inDepartment departmentId) (employeeDepartments db))).*2.

(** ** The service *)

Section Service.

(** [Decimal.prototype.toNumber] and [new Decimal(n)] for a number [n],
    the two conversions of decimal.js between numbers and decimals. *)
Variable toNumber : Decimal → Number.number.
Variable newDecimal : Number.number → Decimal.

(** The [count] and [findMany] queries of the two rollups do not throw on
    this datastore, so their [catch] blocks (which return 0) are not
    reached. *)
Definition getTotalEmployeeCount (departmentId : string) (db : Store) : nat :=
  employeeDepartment_count departmentId db.

(** The reducer [(acc, emp) => acc.plus(emp.hourlyRate)]. *)
Definition plusRate (acc : Decimal) (emp : EmployeeDepartment) : Decimal :=
  (acc + hourlyRate emp)%Qc.

(** The [Decimal] that [getEmployeeCost] accumulates:
    [employees.reduce((acc, emp) => acc.plus(emp.hourlyRate), new Decimal(0))]. *)
Definition employeeCostDecimal (departmentId : string) (db : Store) : Decimal :=
  let employees := employeeDepartment_findMany departmentId db in
  foldl plusRate (Q2Qc 0) employees.

Definition getEmployeeCost (departmentId : string) (db : Store) : Number.number :=
  toNumber (employeeCostDecimal departmentId db).

Definition getDepartmentById (id : string) (db : Store) : option Department :=
  department_findUnique id db.

Definition createDepartment (userId name : string) (info : option string) (db : Store)
    : Outcome DepartmentViewInterface * Store :=
  match user_findUnique userId db with
  | Some user =>
      if decide (user_role user = UserRole.ADMIN) then
        let '(department, db') := department_create name info db in
        (Returned {| department := department;
                     employeeCount := 0;
                     totalCost := Number.zero |}, db')
      else (Null PermissionDenied, db)
  | None => (Null PermissionDenied, db)
  end.

Definition deleteDepartment (userId id : string) (db : Store)
    : Outcome Department * Store :=
  match user_findUnique userId db with
  | Some user =>
      if decide (user_role user = UserRole.ADMIN) then
        match department_delete id db with
        | Some (department, db') => (Returned department, db')
        | None => (Null StorageError, db)
        end
      else (Null PermissionDenied, db)
  | None => (Null PermissionDenied, db)
  end.

(** [user.role !== UserRole.ADMIN &&
     userDeparmentRole?.role !== EmployeeDepartmentRole.MANAGER]. *)
Definition notAdminNorManager (user : User)
    (userDeparmentRole : option EmployeeDepartment) : bool :=
  bool_decide (user_role user ≠ UserRole.ADMIN) &&
  bool_decide (role <$> userDeparmentRole ≠ Some EmployeeDepartmentRole.MANAGER).

Definition addEmployeeToDepartment (userId departmentId employeeId : string)
    (role : EmployeeDepartmentRole.t) (rate : Number.number) (position : string)
    (db : Store) : Outcome DepartmentViewInterface * Store :=
  let user := user_findUnique userId db in
  let userDeparmentRole := employeeDepartment_find userId departmentId db in
  match user with
  | None => (Null PermissionDenied, db)
  | Some user =>
    if notAdminNorManager user userDeparmentRole then (Null PermissionDenied, db)
    else
      match getDepartmentById departmentId db with
      | None => (Null DepartmentNotFound, db)
      | Some department =>
        let employeeExists := employeeDepartment_find employeeId departmentId db in
        let data := {| role := role; hourlyRate := newDecimal rate; position := position |} in
        let written :=
          match employeeExists with
          | Some _ => employeeDepartment_update employeeId departmentId data db
          | None => employeeDepartment_create employeeId departmentId data db
          end in
        match written with
        | Some db' =>
            (Returned {| department := department;
                         employeeCount := getTotalEmployeeCount departmentId db';
                         totalCost := getEmployeeCost departmentId db' |}, db')
        | None => (Null StorageError, db)
        end
      end
  end.

(** ** Interactive transactions

    Inside [db.$transaction(async (tx) => ...)] the queries issued through
    [tx] run against the transaction's own view of the data, which starts as
    the committed content and receives the writes of the transaction;
    queries issued through the global client [db] do not belong to the
    transaction and see the committed content only.  When the callback
    returns, whatever it returns, the writes are committed; when it throws,
    they are discarded and the exception propagates. *)
Record TxState := mkTx {
  committed : Store;
  working : Store
}.

Definition transaction {A} (callback : TxState → option A * TxState) (db : Store)
    : option A * Store :=
  match callback {| committed := db; working := db |} with
  | (Some result, st) => (Some result, working st)
  | (None, st) => (None, committed st)
  end.

(** [user.role === UserRole.ADMIN ||
     userDepartmentRole?.role === EmployeeDepartmentRole.MANAGER ||
     userDepartmentRole?.role === EmployeeDepartmentRole.ADMIN]. *)
Definition hasPermission (user : User)
    (userDepartmentRole : option EmployeeDepartment) : bool :=
  bool_decide (user_role user = UserRole.ADMIN) ||
  bool_decide (role <$> userDepartmentRole = Some EmployeeDepartmentRole.MANAGER) ||
  bool_decide (role <$> userDepartmentRole = Some EmployeeDepartmentRole.ADMIN).

(** The callback of [removeEmployeeFromDepartment].  Steps 1 to 6 go through
    [tx]; step 7 calls [this.getTotalEmployeeCount] and
    [this.getEmployeeCost], which query through [db]. *)
Definition removeEmployeeCallback (userId departmentId employeeId : string)
    (st : TxState) : option (Outcome DepartmentViewInterface) * TxState :=
  match user_findUnique userId (working st) with
  | None => (Some (Null UserNotFound), st)
  | Some user =>
    let userDepartmentRole := employeeDepartment_find userId departmentId (working st) in
    if negb (hasPermission user userDepartmentRole) then (Some (Null PermissionDenied), st)
    else
      match employeeDepartment_find employeeId departmentId (working st) with
      | None => (Some (Null EmployeeNotFound), st)
      | Some employeeInDepartment =>
        match employeeDepartment_delete employeeId departmentId (working st) with
        | None => (None, st)
        | Some working' =>
          let st' := {| committed := committed st; working := working' |} in
          match department_findUnique departmentId (working st') with
          | None => (Some (Null DepartmentNotFound), st')
          | Some department =>
              (Some (Returned
                 {| department := department;
                    employeeCount := getTotalEmployeeCount departmentId (committed st');
                    totalCost := getEmployeeCost departmentId (committed st') |}), st')
          end
        end
      end
  end.

Definition removeEmployeeFromDepartment (userId departmentId employeeId : string)
    (db : Store) : Outcome DepartmentViewInterface * Store :=
  match transaction (removeEmployeeCallback userId departmentId employeeId) db with
  | (Some result, db') => (result, db')
  | (None, db') => (Null StorageError, db')
  end.

(** One add/remove cycle for an employee, as a test of the rollups would
    run it: the datastore after adding the employee and removing the
    employee again. *)
Definition addThenRemove (userId departmentId employeeId : string)
    (role : EmployeeDepartmentRole.t) (rate : Number.number) (position : string)
    (db : Store) : Store :=
  let added :=
    addEmployeeToDepartment userId departmentId employeeId role rate position db in
  (removeEmployeeFromDepartment userId departmentId employeeId added.2).2.

End Service.

(** ** The scenario of the specification

    Department "Sales" with members A (rate 20) and B (rate 15, manager of
    the department); "admin" is a global administrator and C a user without
    membership. *)
Definition sales : Department := {| id := "sales"; name := "Sales"; info := None |}.

Definition salesStore : Store :=
  {| users := {[ "admin" := mkUser UserRole.ADMIN;
                 "a" := mkUser UserRole.USER;
                 "b" := mkUser UserRole.USER;
                 "c" := mkUser UserRole.USER ]};
     departments := {[ "sales" := sales ]};
     employeeDepartments :=
       {[ ("a", "sales") := mkEmployeeDepartment EmployeeDepartmentRole.MEMBER (Q2Qc 20) "clerk";
          ("b", "sales") := mkEmployeeDepartment EmployeeDepartmentRole.MANAGER (Q2Qc 15) "lead" ]} |}.

(** Conversions for evaluating the scenario: a decimal whose numerator and
    denominator are exactly representable converts to a number by one
    correctly rounded division, and an integer-valued number converts to
    the decimal of that integer. *)
Definition quotientToNumber (d : Decimal) : Number.number :=
  Number.div (Number.ofZ (Qnum d)) (Number.ofZ (Zpos (Qden d))).

Definition integerToDecimal (n : Number.number) : Decimal :=
  match n with
  | S754_finite s m e =>
      Q2Qc (inject_Z ((if s then Zneg m else Zpos m) * 2 ^ Z.max e 0 / 2 ^ Z.max (- e) 0))
  | _ => Q2Qc 0
  end.

(** ** The rest of the service

    The functions of the service that update a department or a role and
    that list departments. *)

(** [department.update({ where: { id }, data: { name } })]: throws when the
    department does not exist. *)
Definition department_update (id name : string) (db : Store)
    : option (Department * Store) :=
  match departments db !! id with
  | Some (mkDepartment id' _ info) =>
      let department := mkDepartment id' name info in
      Some (department,
            {| users := users db;
               departments := <[id := department]> (departments db);
               employeeDepartments := employeeDepartments db |})
  | None => None
  end.

(** [employeeDepartment.update({ where: { userId_departmentId }, data: { role } })]:
    throws when the row does not exist. *)
Definition employeeDepartment_updateRole (userId departmentId : string)
    (role : EmployeeDepartmentRole.t) (db : Store) : option (EmployeeDepartment * Store) :=
  match employeeDepartments db !! (userId, departmentId) with
  | Some (mkEmployeeDepartment _ hourlyRate position) =>
      let employee := mkEmployeeDepartment role hourlyRate position in
      Some (employee,
            {| users := users db; departments := departments db;
               employeeDepartments :=
                 <[(userId, departmentId) := employee]> (employeeDepartments db) |})
  | None => None
  end.

(** [department.findMany()]. *)
Definition department_findMany (db : Store) : list Department :=
  (map_to_list (departments db)).*2.

(** [department.findMany({ where: { id: { in: ids } } })]. *)
Definition department_findManyIn (ids : list string) (db : Store) : list Department :=
  (map_to_list (filter (fun row : string * Department => row.1 ∈ ids) (departments db))).*2.

(** The rows selected by
    [where: { userId, OR: [{ role: MANAGER }, { role: ADMIN }] }]. *)
Definition managedBy (userId : string)
    (row : string * string * EmployeeDepartment) : Prop :=
  row.1.1 = userId ∧
  (role row.2 = EmployeeDepartmentRole.MANAGER ∨ role row.2 = EmployeeDepartmentRole.ADMIN).

#[global] Instance managedBy_dec userId row : Decision (managedBy userId row).
Proof. unfold managedBy. apply _. Defined.

(** The rows selected by [where: { userId }]. *)
Definition memberOf (userId : string)
    (row : string * string * EmployeeDepartment) : Prop :=
  row.1.1 = userId.

#[global] Instance memberOf_dec userId row : Decision (memberOf userId row).
Proof. unfold memberOf. apply _. Defined.

(** [departments.map((dep) => dep.departmentId)] on the rows found. *)
Definition departmentIds (rows : list (string * string * EmployeeDepartment))
    : list string :=
  (fun row => row.1.2) <$> rows.

Definition updateDepartment (userId id name : string) (db : Store)
    : Outcome Department * Store :=
  let user := user_findUnique userId db in
  let userDeparmentRole := employeeDepartment_find userId id db in
  match user with
  | None => (Null PermissionDenied, db)
  | Some user =>
    if notAdminNorManager user userDeparmentRole then (Null PermissionDenied, db)
    else
      match department_update id name db with
      | Some (department, db') => (Returned department, db')
      | None => (Null StorageError, db)
      end
  end.

Definition updateEmployeeRole (userId departmentId employeeId : string)
    (role : EmployeeDepartmentRole.t) (db : Store)
    : Outcome EmployeeDepartment * Store :=
  let user := user_findUnique userId db in
  let userDeparmentRole := employeeDepartment_find userId departmentId db in
  match user with
  | None => (Null PermissionDenied, db)
  | Some user =>
    if notAdminNorManager user userDeparmentRole then (Null PermissionDenied, db)
    else
      match employeeDepartment_updateRole employeeId departmentId role db with
      | Some (employee, db') => (Returned employee, db')
      | None => (Null StorageError, db)
      end
  end.

(** The listing functions only read; their queries do not throw on this
    datastore, so they are given by the list they return.  [currentRole] is
    the role of the signed-in user that [currentRole()] reads from the
    session, [None] when there is none. *)
Definition getAllDepartmentsInfo (db : Store) : list Department :=
  department_findMany db.

Definition getUserPermittedDepartmentsInfo (currentRole : option UserRole.t)
    (userId : string) (db : Store) : list Department :=
  if decide (currentRole = Some UserRole.ADMIN) then department_findMany db
  else
    let departments :=
      map_to_list (filter (managedBy userId) (employeeDepartments db)) in
    department_findManyIn (departmentIds departments) db.

Section Views.
Variable toNumber : Decimal → Number.number.

(** [for (const department of departments) { department.employeeCount = ...;
    department.totalCost = ... }]. *)
Definition withRollups (db : Store) (departments : list Department)
    : list DepartmentViewInterface :=
  (fun department =>
     {| department := department;
        employeeCount := getTotalEmployeeCount (id department) db;
        totalCost := getEmployeeCost toNumber (id department) db |}) <$> departments.

Definition getAllDepartments (db : Store) : list DepartmentViewInterface :=
  withRollups db (department_findMany db).

Definition getUserPermittedDepartments (currentRole : option UserRole.t)
    (userId : string) (db : Store) : list DepartmentViewInterface :=
  if decide (currentRole = Some UserRole.ADMIN) then getAllDepartments db
  else
    let departments :=
      map_to_list (filter (managedBy userId) (employeeDepartments db)) in
    withRollups db (department_findManyIn (departmentIds departments) db).

Definition getEmployessByDepartmentIds (currentRole : option UserRole.t)
    (userId : string) (db : Store) : list DepartmentViewInterface :=
  if decide (currentRole = Some UserRole.ADMIN) then getAllDepartments db
  else
    let departments :=
      map_to_list (filter (memberOf userId) (employeeDepartments db)) in
    withRollups db (department_findManyIn (departmentIds departments) db).

End Views.

(** Referential integrity of the membership table: every row refers to an
    existing user and an existing department. *)
Definition consistent (db : Store) : Prop :=
  map_Forall (fun (key : string * string) (_ : EmployeeDepartment) =>
                is_Some (users db !! key.1) ∧ is_Some (departments db !! key.2))
             (employeeDepartments db).

(** Every department is stored under its own id. *)
Definition keyed (db : Store) : Prop :=
  map_Forall (fun key department => id department = key) (departments db).

(** A user who is not a global administrator and holds the role [ADMIN]
    within Sales. *)
Definition salesAdminStore : Store :=
  {| users := {[ "admin" := mkUser UserRole.ADMIN;
                 "a" := mkUser UserRole.USER;
                 "b" := mkUser UserRole.USER ]};
     departments := {[ "sales" := sales ]};
     employeeDepartments :=
       {[ ("a", "sales") := mkEmployeeDepartment EmployeeDepartmentRole.ADMIN (Q2Qc 20) "head";
          ("b", "sales") := mkEmployeeDepartment EmployeeDepartmentRole.MEMBER (Q2Qc 15) "clerk" ]} |}.

End DepartmentService.

(* ===================================================================== *)
(** * The client-side time-entry state *)
(* ===================================================================== *)

Module TimeEntryContext.

(** A decimal.js value built on the client: a finite decimal, held as the
    exact rational it denotes, or the value that [new Decimal(text)] gives
    for the text of [Number::toString(x)]. *)
Inductive Decimal :=
  | Finite (value : Qc)
  | OfNumberText (x : Number.number).

(** [new Decimal(text)] for a text produced by [toFixed(2)]. *)
Definition newDecimal (text : Number.fixed) : Decimal :=
  match text with
  | Number.Digits negative n =>
      Finite (Q2Qc ((if negative then - n else n) # 100))
  | Number.General x => OfNumberText x
  end.

(** A [TimeEntry] row; [clockIn] and [clockOut] are [Date]s, held as their
    time value in milliseconds. *)
Module TimeEntry.
Record t := mk {
  id : string;
  userId : string;
  departmentId : string;
  clockIn : Z;
  clockOut : option Z;
  hours : option Decimal
}.
End TimeEntry.
Abbreviation TimeEntry := TimeEntry.t.

(** The state of [TimeEntryProvider] that the clock actions touch. *)
Record State := mkState {
  currentEntry : option TimeEntry;
  recentEntries : list TimeEntry;
  loading : bool
}.

Definition addEntry (entry : TimeEntry) (st : State) : State :=
  {| currentEntry := currentEntry st;
     recentEntries := entry :: recentEntries st;
     loading := loading st |}.

Definition clockIn (newEntry : TimeEntry) (st : State) : State :=
  addEntry newEntry
    {| currentEntry := Some newEntry;
       recentEntries := recentEntries st;
       loading := loading st |}.

(** [(clockOutTime.getTime() - clockInTime.getTime()) / (1000 * 60 * 60)],
    in numbers. *)
Definition elapsedHours (clockOutTime clockInTime : Z) : Number.number :=
  Number.div
    (Number.sub (Number.ofZ clockOutTime) (Number.ofZ clockInTime))
    (Number.mul (Number.mul (Number.ofZ 1000) (Number.ofZ 60)) (Number.ofZ 60)).

(** [clockOut(timeEntryId)]; [now] is the time value of [new Date()]. *)
Definition clockOut (timeEntryId : string) (now : Z) (st : State) : State :=
  match currentEntry st with
  | Some current =>
      let clockOutTime := now in
      let clockInTime := TimeEntry.clockIn current in
      let hours := elapsedHours clockOutTime clockInTime in
      let completedEntry :=
        {| TimeEntry.id := TimeEntry.id current;
           TimeEntry.userId := TimeEntry.userId current;
           TimeEntry.departmentId := TimeEntry.departmentId current;
           TimeEntry.clockIn := TimeEntry.clockIn current;
           TimeEntry.clockOut := Some clockOutTime;
           TimeEntry.hours := Some (newDecimal (Number.toFixed2 hours)) |} in
      {| currentEntry := None;
         recentEntries :=
           (fun entry =>
              if decide (TimeEntry.id entry = timeEntryId) then completedEntry else entry)
             <$> recentEntries st;
         loading := false |}
  | None =>
      {| currentEntry := currentEntry st;
         recentEntries := recentEntries st;
         loading := false |}
  end.

(** [departmentMap], the lookup of departments by id that the provider
    builds: [departmentsProp.reduce((acc, dept) =>
       ({ ...acc, [dept.id]: dept }), {})]. *)
Definition departmentMap (departments : list DepartmentService.Department)
    : gmap string DepartmentService.Department :=
  foldl (fun acc dept => <[DepartmentService.id dept := dept]> acc) ∅ departments.

(** ** Rounding a duration in decimal arithmetic

    The specification words the hours as the duration in hours rounded to
    two decimal places in decimal arithmetic.  The duration of [ms]
    milliseconds is the fraction [ms / 3600000]; the rounding modes are
    those of decimal.js, on a non-negative duration. *)
Inductive RoundingMode :=
  | ROUND_UP | ROUND_DOWN | ROUND_CEIL | ROUND_FLOOR
  | ROUND_HALF_UP | ROUND_HALF_DOWN | ROUND_HALF_EVEN
  | ROUND_HALF_CEIL | ROUND_HALF_FLOOR.

(** The number of hundredths of an hour in [ms >= 0] milliseconds, rounded
    to an integer: one hundredth of an hour is 36000 ms. *)
Definition decimalHundredths (mode : RoundingMode) (ms : Z) : Z :=
  let q := ms / 36000 in
  let r := ms mod 36000 in
  match mode with
  | ROUND_UP | ROUND_CEIL => if r =? 0 then q else q + 1
  | ROUND_DOWN | ROUND_FLOOR => q
  | ROUND_HALF_UP | ROUND_HALF_CEIL => if 18000 <=? r then q + 1 else q
  | ROUND_HALF_DOWN | ROUND_HALF_FLOOR => if 18000 <? r then q + 1 else q
  | ROUND_HALF_EVEN =>
      if 18000 <? r then q + 1
      else if (r =? 18000) && Z.odd q then q + 1 else q
  end.

Definition decimalHours (mode : RoundingMode) (ms : Z) : Decimal :=
  Finite (Q2Qc (decimalHundredths mode ms # 100)).

(** The hours that [clockOut] computes for an entry clocked in at
    [clockInTime]. *)
Definition clientHours (clockOutTime clockInTime : Z) : Decimal :=
  newDecimal (Number.toFixed2 (elapsedHours clockOutTime clockInTime)).

(** Scenario of the specification: clock-in on 2024-01-01 at 09:00:00 UTC. *)
Definition nineOClock : Z := 1704099600000.

Definition openEntry : TimeEntry :=
  {| TimeEntry.id := "t1"; TimeEntry.userId := "a"; TimeEntry.departmentId := "sales";
     TimeEntry.clockIn := nineOClock; TimeEntry.clockOut := None;
     TimeEntry.hours := None |}.

Definition clockedIn : State :=
  {| currentEntry := Some openEntry; recentEntries := [openEntry]; loading := false |}.

End TimeEntryContext.

(* ===================================================================== *)
(** * Properties of the conflict detector *)
(* ===================================================================== *)

Module ScheduleViewFacts.
Import ScheduleView.

(** ** The overlap test *)

(** On well-formed shifts (start before end) the test of the code is the
    overlap test of closed intervals. *)
Lemma hasOverlap_closed start1 end1 start2 end2 :
  start1 < end1 → start2 < end2 →
  hasOverlap start1 end1 start2 end2 = (start1 <=? end2) && (start2 <=? end1).
Proof.
  intros H1 H2. unfold hasOverlap.
  destruct (Z.leb_spec start1 end2), (Z.leb_spec start2 end1),
    (Z.gtb_spec end1 start2), (Z.gtb_spec end2 start1); simpl; try reflexivity; lia.
Qed.

Lemma hasOverlap_sym start1 end1 start2 end2 :
  hasOverlap start1 end1 start2 end2 = hasOverlap start2 end2 start1 end1.
Proof. unfold hasOverlap. apply orb_comm. Qed.

Lemma strictOverlap_hasOverlap start1 end1 start2 end2 :
  strictOverlap start1 end1 start2 end2 = true →
  hasOverlap start1 end1 start2 end2 = true.
Proof.
  unfold strictOverlap, hasOverlap. intros [H1 H2]%andb_true_iff.
  apply Z.ltb_lt in H1, H2. apply orb_true_iff. left. apply andb_true_iff.
  split; [apply Z.leb_le | apply Z.gtb_lt]; lia.
Qed.

(** Touching shifts pass the test of the code whenever both are
    well-formed. *)
Lemma hasOverlap_touching start1 meet end2 :
  start1 < meet → meet < end2 →
  hasOverlap start1 meet meet end2 = true ∧
  strictOverlap start1 meet meet end2 = false.
Proof.
  intros H1 H2. split.
  - rewrite hasOverlap_closed by lia.
    apply andb_true_iff; split; apply Z.leb_le; lia.
  - unfold strictOverlap. apply andb_false_iff. right. apply Z.ltb_irrefl.
Qed.

Lemma conflicting_sym a b : conflicting a b = conflicting b a.
Proof.
  unfold conflicting. rewrite Z.eqb_sym. f_equal. apply hasOverlap_sym.
Qed.

(** ** The shape of the result *)

Lemma conflicts_nil : conflicts (checkScheduleConflicts []) = [].
Proof. reflexivity. Qed.

(** The first schedule is compared with every later one; the rest of the
    result is the result for the later ones alone. *)
Lemma conflicts_cons schedule1 rest :
  conflicts (checkScheduleConflicts (schedule1 :: rest)) =
  (rest ≫= compareSchedules schedule1) ++ conflicts (checkScheduleConflicts rest).
Proof.
  unfold checkScheduleConflicts. cbn [conflicts].
  rewrite (imap_cons _ schedule1 rest). reflexivity.
Qed.

Lemma compareShifts_spec schedule1 schedule2 a b c :
  c ∈ compareShifts schedule1 schedule2 a b ↔
  conflicting a b = true ∧
  c = {| shift1 := mkNamedShift a (department_name (department schedule1));
         shift2 := mkNamedShift b (department_name (department schedule2)) |}.
Proof.
  unfold compareShifts, conflicting.
  destruct (dayOfWeek a =? dayOfWeek b); simpl.
  - destruct (hasOverlap _ _ _ _); simpl.
    + rewrite list_elem_of_singleton. tauto.
    + split; [intros H; inversion H | intros [H _]; discriminate].
  - split; [intros H; inversion H | intros [H _]; discriminate].
Qed.

Lemma compareSchedules_spec schedule1 schedule2 c :
  c ∈ compareSchedules schedule1 schedule2 ↔
  department_id (department schedule1) ≠ department_id (department schedule2) ∧
  ∃ a b, a ∈ schedules schedule1 ∧ b ∈ schedules schedule2 ∧
         conflicting a b = true ∧
         c = {| shift1 := mkNamedShift a (department_name (department schedule1));
                shift2 := mkNamedShift b (department_name (department schedule2)) |}.
Proof.
  unfold compareSchedules. case_decide as Hid.
  - split; [intros H; inversion H | intros [H _]; contradiction].
  - rewrite list_elem_of_bind. split.
    + intros (a & Hc & Ha). apply list_elem_of_bind in Hc as (b & Hc & Hb).
      apply compareShifts_spec in Hc as [Hab ->]. split; [done|]. by exists a, b.
    + intros (_ & a & b & Ha & Hb & Hab & ->). exists a. split; [|done].
      apply list_elem_of_bind. exists b. split; [|done].
      by apply compareShifts_spec.
Qed.

Lemma elem_of_conflicts schedules c :
  c ∈ conflicts (checkScheduleConflicts schedules) ↔ arisesFrom schedules c.
Proof.
  induction schedules as [|s rest IH].
  - rewrite conflicts_nil. split; [intros H; inversion H|].
    intros (i & j & s1 & s2 & a & b & _ & H & _). by rewrite lookup_nil in H.
  - rewrite conflicts_cons, elem_of_app, IH, list_elem_of_bind. split.
    + intros [(s2 & Hc & Hs2) | (i & j & s1 & s2 & a & b & Hij & Hi & Hj & Hrest)].
      * apply list_elem_of_lookup_1 in Hs2 as [j Hj].
        apply compareSchedules_spec in Hc as (Hid & a & b & Ha & Hb & Hab & ->).
        exists 0%nat, (S j), s, s2, a, b. split_and!; try done. lia.
      * destruct Hrest as (Hid & Ha & Hb & Hab & ->).
        exists (S i), (S j), s1, s2, a, b. split_and!; try done. lia.
    + intros (i & j & s1 & s2 & a & b & Hij & Hi & Hj & Hid & Ha & Hb & Hab & ->).
      destruct j as [|j]; [lia|]. simpl in Hj. destruct i as [|i].
      * left. simpl in Hi. injection Hi as ->. exists s2. split.
        -- apply compareSchedules_spec. split; [done|]. by exists a, b.
        -- by eapply list_elem_of_lookup_2.
      * right. exists i, j, s1, s2, a, b. split_and!; try done. lia.
Qed.

(** ** Distinct shifts are reported without repetition *)

Lemma allShifts_cons s rest :
  allShifts (s :: rest) = schedules s ++ allShifts rest.
Proof. reflexivity. Qed.

Lemma elem_of_allShifts ss x :
  x ∈ allShifts ss ↔ ∃ s, x ∈ schedules s ∧ s ∈ ss.
Proof. unfold allShifts. apply list_elem_of_bind. Qed.

Lemma elem_of_allShifts_lookup ss i s x :
  ss !! i = Some s → x ∈ schedules s → x ∈ allShifts ss.
Proof.
  intros Hi Hx. apply elem_of_allShifts. exists s. split; [done|].
  by eapply list_elem_of_lookup_2.
Qed.

(** When no shift occurs twice, a shift determines the position of its
    schedule. *)
Lemma shift_unique_schedule ss i i' s s' x :
  NoDup (allShifts ss) →
  ss !! i = Some s → ss !! i' = Some s' →
  x ∈ schedules s → x ∈ schedules s' → i = i'.
Proof.
  revert i i'. induction ss as [|s0 rest IH]; intros i i' Hnd Hi Hi' Hx Hx'.
  - by rewrite lookup_nil in Hi.
  - rewrite allShifts_cons in Hnd. apply NoDup_app in Hnd as (_ & Hdisj & Hrest).
    destruct i as [|i], i' as [|i']; simpl in Hi, Hi'.
    + reflexivity.
    + injection Hi as ->. exfalso. apply (Hdisj x Hx).
      by eapply elem_of_allShifts_lookup.
    + injection Hi' as ->. exfalso. apply (Hdisj x Hx').
      by eapply elem_of_allShifts_lookup.
    + f_equal. by eapply IH.
Qed.

Lemma NoDup_schedules ss s :
  NoDup (allShifts ss) → s ∈ ss → NoDup (schedules s).
Proof.
  induction ss as [|s0 rest IH]; intros Hnd Hs; [inversion Hs|].
  rewrite allShifts_cons in Hnd. apply NoDup_app in Hnd as (Hs0 & _ & Hrest).
  apply elem_of_cons in Hs as [-> | Hs]; auto.
Qed.

Lemma NoDup_compareSchedules schedule1 schedule2 :
  NoDup (schedules schedule1) → NoDup (schedules schedule2) →
  NoDup (compareSchedules schedule1 schedule2).
Proof.
  intros H1 H2. unfold compareSchedules. case_decide; [constructor|].
  apply NoDup_bind; [| |done].
  - intros a a' c _ _ (b & Hc & _)%list_elem_of_bind (b' & Hc' & _)%list_elem_of_bind.
    apply compareShifts_spec in Hc as [_ ->].
    apply compareShifts_spec in Hc' as [_ Heq]. by injection Heq.
  - intros a _. apply NoDup_bind; [| |done].
    + intros b b' c _ _ Hc Hc'.
      apply compareShifts_spec in Hc as [_ ->].
      apply compareShifts_spec in Hc' as [_ Heq]. by injection Heq.
    + intros b _. unfold compareShifts.
      repeat case_match; auto using NoDup_nil_2, NoDup_singleton.
Qed.

Lemma NoDup_against schedule1 rest :
  NoDup (schedules schedule1) → NoDup (allShifts rest) →
  NoDup (rest ≫= compareSchedules schedule1).
Proof.
  intros H1. induction rest as [|s2 rest IH]; intros Hnd; [constructor|].
  rewrite allShifts_cons in Hnd. apply NoDup_app in Hnd as (Hs2 & Hdisj & Hrest).
  rewrite bind_cons. apply NoDup_app. split_and!.
  - by apply NoDup_compareSchedules.
  - intros c (_ & a & b & _ & Hb & _ & ->)%compareSchedules_spec
      (s3 & Hc & Hs3)%list_elem_of_bind.
    apply compareSchedules_spec in Hc as (_ & a' & b' & _ & Hb' & _ & Heq).
    injection Heq as _ <-. apply (Hdisj b Hb).
    apply elem_of_allShifts. by exists s3.
  - by apply IH.
Qed.

Lemma NoDup_conflicts ss :
  NoDup (allShifts ss) → NoDup (conflicts (checkScheduleConflicts ss)).
Proof.
  induction ss as [|s rest IH]; intros Hnd; [constructor|].
  rewrite allShifts_cons in Hnd. apply NoDup_app in Hnd as (Hs & Hdisj & Hrest).
  rewrite conflicts_cons. apply NoDup_app. split_and!.
  - by apply NoDup_against.
  - intros c (s2 & Hc & _)%list_elem_of_bind Hc'.
    apply compareSchedules_spec in Hc as (_ & a & b & Ha & _ & _ & ->).
    apply elem_of_conflicts in Hc'
      as (i & j & s1 & s3 & a' & b' & _ & Hi & _ & _ & Ha' & _ & _ & Heq).
    injection Heq as <- _ _ _. apply (Hdisj a Ha).
    by eapply elem_of_allShifts_lookup.
  - by apply IH.
Qed.

(** A list without repetition whose members are all equal to one of them
    has exactly one member. *)
Lemma NoDup_all_equal_length {A} (l : list A) (x : A) :
  NoDup l → x ∈ l → (∀ y, y ∈ l → y = x) → length l = 1%nat.
Proof.
  intros Hnd Hx Hall. destruct l as [|y [|z l]]; [inversion Hx|done|].
  exfalso. apply NoDup_cons in Hnd as [Hy _]. apply Hy.
  rewrite (Hall y), (Hall z); [left | right; left | left].
Qed.

Lemma filter_none {A} (P : A → Prop) `{∀ x, Decision (P x)} (l : list A) :
  (∀ x, x ∈ l → ¬ P x) → filter P l = [].
Proof.
  intros Hall. destruct (filter P l) as [|x k] eqn:E; [done|].
  assert (Hx : x ∈ filter P l) by (rewrite E; left).
  apply list_elem_of_filter in Hx as [HP Hx]. by destruct (Hall x Hx).
Qed.

Lemma reportsPair_sym a b c : reportsPair a b c ↔ reportsPair b a c.
Proof. unfold reportsPair. tauto. Qed.

Section Counting.
Variable ss : list ScheduleWithDepartment.
Hypothesis distinct : NoDup (allShifts ss).
Variables (i j : nat) (schedule1 schedule2 : ScheduleWithDepartment).
Variables a b : WorkShift.
Hypothesis Hi : ss !! i = Some schedule1.
Hypothesis Hj : ss !! j = Some schedule2.
Hypothesis Ha : a ∈ schedules schedule1.
Hypothesis Hb : b ∈ schedules schedule2.

Local Abbreviation out := (conflicts (checkScheduleConflicts ss)).

(** A report about [{a, b}] comes from the two schedules holding [a] and
    [b], so these are in different departments and the shifts conflict. *)
Lemma reportsPair_inv c :
  c ∈ out → reportsPair a b c →
  department_id (department schedule1) ≠ department_id (department schedule2) ∧
  conflicting a b = true ∧
  ((i < j)%nat ∧
   c = {| shift1 := mkNamedShift a (department_name (department schedule1));
          shift2 := mkNamedShift b (department_name (department schedule2)) |} ∨
   (j < i)%nat ∧
   c = {| shift1 := mkNamedShift b (department_name (department schedule2));
          shift2 := mkNamedShift a (department_name (department schedule1)) |}).
Proof.
  intros (i' & j' & s1 & s2 & a' & b' & Hlt & Hi' & Hj' & Hid & Ha' & Hb' & Hab & ->)
    %elem_of_conflicts [[Ea Eb] | [Eb Ea]]; simpl in Ea, Eb; subst a' b'.
  - assert (i' = i) as -> by eauto using shift_unique_schedule.
    assert (j' = j) as -> by eauto using shift_unique_schedule.
    assert (s1 = schedule1) as -> by congruence.
    assert (s2 = schedule2) as -> by congruence. auto.
  - assert (i' = j) as -> by eauto using shift_unique_schedule.
    assert (j' = i) as -> by eauto using shift_unique_schedule.
    assert (s1 = schedule2) as -> by congruence.
    assert (s2 = schedule1) as -> by congruence.
    rewrite conflicting_sym. auto.
Qed.

Lemma count_same_department :
  department_id (department schedule1) = department_id (department schedule2) →
  filter (reportsPair a b) out = [].
Proof.
  intros Hid. apply filter_none. intros c Hc HP.
  by destruct (reportsPair_inv c Hc HP) as (Hne & _).
Qed.

Lemma count_not_conflicting :
  conflicting a b = false → filter (reportsPair a b) out = [].
Proof.
  intros Hab. apply filter_none. intros c Hc HP.
  destruct (reportsPair_inv c Hc HP) as (_ & Hab' & _). congruence.
Qed.

Lemma count_earlier :
  (i < j)%nat →
  department_id (department schedule1) ≠ department_id (department schedule2) →
  conflicting a b = true →
  length (filter (reportsPair a b) out) = 1%nat.
Proof.
  intros Hlt Hid Hab.
  apply NoDup_all_equal_length with
    (x := {| shift1 := mkNamedShift a (department_name (department schedule1));
             shift2 := mkNamedShift b (department_name (department schedule2)) |}).
  - apply NoDup_filter. by apply NoDup_conflicts.
  - apply list_elem_of_filter. split; [by left|].
    apply elem_of_conflicts. by exists i, j, schedule1, schedule2, a, b.
  - intros c [HP Hc]%list_elem_of_filter.
    destruct (reportsPair_inv c Hc HP) as (_ & _ & [[_ ->] | [Hgt _]]); [done|lia].
Qed.

End Counting.

(** ** The scenario of the specification *)

Example overlapping_shifts_reported :
  checkScheduleConflicts [mkSchedule [shiftX] dept1; mkSchedule [shiftY] dept2] =
  {| hasConflict := true;
     conflicts := [ {| shift1 := mkNamedShift shiftX "Dept1";
                       shift2 := mkNamedShift shiftY "Dept2" |} ] |}.
Proof. vm_compute. reflexivity. Qed.

(** C1. The claim is that shifts that only touch (one ends exactly when the
    other starts) are not reported.  The detector reports them: shift X
    (Monday 09:00-13:00, department 1) and shift Z (Monday 13:00-17:00,
    department 2) have no instant in common, the strict test
    [start1 < end2 && start2 < end1] rejects them, and
    [checkScheduleConflicts] returns them as a conflict. *)
Theorem touching_shifts_reported :
  checkScheduleConflicts [mkSchedule [shiftX] dept1; mkSchedule [shiftZ] dept2] =
  {| hasConflict := true;
     conflicts := [ {| shift1 := mkNamedShift shiftX "Dept1";
                       shift2 := mkNamedShift shiftZ "Dept2" |} ] |} ∧
  endTime shiftX = startTime shiftZ ∧
  strictOverlap (startTime shiftX) (endTime shiftX)
                (startTime shiftZ) (endTime shiftZ) = false.
Proof. vm_compute. auto. Qed.

(** C5. For two shifts [a] and [b] of the input, whose shifts have distinct
    ids, the number of reported conflicts about the unordered pair [{a, b}]
    is exactly one when their schedules belong to different departments and
    the shifts conflict (same day of week, overlapping), and zero otherwise:
    in particular shifts of the same department are never reported, whether
    they overlap or not.  Moreover every reported conflict arises from two
    schedules of different departments. *)
Theorem conflicts_reported_exactly_once
    (ss : list ScheduleWithDepartment) (i j : nat)
    (schedule1 schedule2 : ScheduleWithDepartment) (a b : WorkShift) :
  NoDup (id <$> allShifts ss) →
  ss !! i = Some schedule1 → ss !! j = Some schedule2 →
  a ∈ schedules schedule1 → b ∈ schedules schedule2 →
  length (filter (reportsPair a b) (conflicts (checkScheduleConflicts ss))) =
    (if decide (department_id (department schedule1) =
                department_id (department schedule2)) then 0
     else if conflicting a b then 1 else 0)%nat ∧
  ∀ c, c ∈ conflicts (checkScheduleConflicts ss) → arisesFrom ss c.
Proof.
  intros Hids%NoDup_fmap_1 Hi Hj Ha Hb. split; [|intros c; apply elem_of_conflicts].
  case_decide as Hid.
  - by rewrite (count_same_department ss Hids i j schedule1 schedule2 a b).
  - destruct (conflicting a b) eqn:Hab;
      [|by rewrite (count_not_conflicting ss Hids i j schedule1 schedule2 a b)].
    destruct (Nat.lt_total i j) as [Hlt | [-> | Hgt]].
    + by apply (count_earlier ss Hids i j schedule1 schedule2 a b).
    + congruence.
    + rewrite (list_filter_iff _ (reportsPair b a)) by apply reportsPair_sym.
      apply (count_earlier ss Hids j i schedule2 schedule1 b a); auto.
      by rewrite conflicting_sym.
Qed.

Lemma conflicts_reported_exactly_once_witness :
  length (filter (reportsPair shiftX shiftY)
            (conflicts (checkScheduleConflicts
               [mkSchedule [shiftX] dept1; mkSchedule [shiftY; shiftZ] dept2]))) = 1%nat.
Proof.
  apply (conflicts_reported_exactly_once
           [mkSchedule [shiftX] dept1; mkSchedule [shiftY; shiftZ] dept2]
           0 1 (mkSchedule [shiftX] dept1) (mkSchedule [shiftY; shiftZ] dept2)
           shiftX shiftY).
  - apply (bool_decide_unpack _). vm_compute. reflexivity.
  - reflexivity.
  - reflexivity.
  - apply (bool_decide_unpack _). vm_compute. reflexivity.
  - apply (bool_decide_unpack _). vm_compute. reflexivity.
Defined.

End ScheduleViewFacts.

(* ===================================================================== *)
(** * Properties of the department service *)
(* ===================================================================== *)

Module DepartmentServiceFacts.
Import DepartmentService.

(** ** Sums of rates *)

Ltac decimal_ring := unfold plusRate, Decimal in *; ring.

Lemma foldl_plusRate_acc (acc : Decimal) (l : list EmployeeDepartment) :
  foldl plusRate acc l = (acc + foldl plusRate (Q2Qc 0) l)%Qc.
Proof.
  revert acc. induction l as [|emp l IH]; intros acc; simpl.
  - decimal_ring.
  - rewrite (IH (plusRate acc emp)), (IH (plusRate (Q2Qc 0) emp)).
    decimal_ring.
Qed.

Lemma foldl_plusRate_cons (emp : EmployeeDepartment) (l : list EmployeeDepartment) :
  foldl plusRate (Q2Qc 0) (emp :: l) =
  (foldl plusRate (Q2Qc 0) l + hourlyRate emp)%Qc.
Proof. simpl. rewrite foldl_plusRate_acc. decimal_ring. Qed.

(** The order in which the datastore lists the rows does not matter. *)
Lemma foldl_plusRate_perm (l k : list EmployeeDepartment) :
  l ≡ₚ k → foldl plusRate (Q2Qc 0) l = foldl plusRate (Q2Qc 0) k.
Proof.
  induction 1 as [|x l k _ IH|x y l|l k m _ IH1 _ IH2].
  - reflexivity.
  - by rewrite !foldl_plusRate_cons, IH.
  - rewrite !foldl_plusRate_cons. decimal_ring.
  - congruence.
Qed.

Section Rollups.
Variables (db : Store) (userId departmentId : string) (data : EmployeeDepartment).

Local Abbreviation key := (userId, departmentId).
Local Abbreviation db_insert :=
  {| users := users db; departments := departments db;
     employeeDepartments := <[key := data]> (employeeDepartments db) |}.
Local Abbreviation db_delete :=
  {| users := users db; departments := departments db;
     employeeDepartments := delete key (employeeDepartments db) |}.

Lemma cost_insert_new :
  employeeDepartments db !! key = None →
  employeeCostDecimal departmentId db_insert =
  (employeeCostDecimal departmentId db + hourlyRate data)%Qc.
Proof.
  intros Hnew. unfold employeeCostDecimal, employeeDepartment_findMany. simpl.
  rewrite map_filter_insert_True by done.
  rewrite <- foldl_plusRate_cons. apply foldl_plusRate_perm.
  change (data :: ?l.*2) with (((key, data) :: l).*2).
  apply fmap_Permutation, map_to_list_insert.
  by apply map_lookup_filter_None_2; left.
Qed.

Lemma cost_delete old :
  employeeDepartments db !! key = Some old →
  employeeCostDecimal departmentId db_delete =
  (employeeCostDecimal departmentId db - hourlyRate old)%Qc.
Proof.
  intros Hold. unfold employeeCostDecimal, employeeDepartment_findMany. simpl.
  rewrite map_filter_delete.
  assert (Hperm : (map_to_list (filter (inDepartment departmentId)
                                  (employeeDepartments db))).*2 ≡ₚ
                  old :: (map_to_list (delete key (filter (inDepartment departmentId)
                                  (employeeDepartments db)))).*2).
  { change (old :: ?l.*2) with (((key, old) :: l).*2).
    apply fmap_Permutation. symmetry. apply map_to_list_delete.
    by apply map_lookup_filter_Some_2. }
  rewrite (foldl_plusRate_perm _ _ Hperm), foldl_plusRate_cons. decimal_ring.
Qed.

Lemma cost_insert_existing old :
  employeeDepartments db !! key = Some old →
  employeeCostDecimal departmentId db_insert =
  (employeeCostDecimal departmentId db - hourlyRate old + hourlyRate data)%Qc.
Proof.
  intros Hold. rewrite <- (cost_delete old Hold).
  unfold employeeCostDecimal, employeeDepartment_findMany. simpl.
  rewrite map_filter_insert_True by done.
  rewrite <- insert_delete_eq, map_filter_delete.
  rewrite <- foldl_plusRate_cons. apply foldl_plusRate_perm.
  change (data :: ?l.*2) with (((key, data) :: l).*2).
  apply fmap_Permutation, map_to_list_insert, lookup_delete_eq.
Qed.

Lemma count_insert_new :
  employeeDepartments db !! key = None →
  employeeDepartment_count departmentId db_insert =
  S (employeeDepartment_count departmentId db).
Proof.
  intros Hnew. unfold employeeDepartment_count. simpl.
  rewrite map_filter_insert_True by done.
  apply map_size_insert_None. by apply map_lookup_filter_None_2; left.
Qed.

Lemma count_insert_existing old :
  employeeDepartments db !! key = Some old →
  employeeDepartment_count departmentId db_insert =
  employeeDepartment_count departmentId db.
Proof.
  intros Hold. unfold employeeDepartment_count. simpl.
  rewrite map_filter_insert_True by done.
  apply map_size_insert_Some. exists old. by apply map_lookup_filter_Some_2.
Qed.

Lemma count_delete old :
  employeeDepartments db !! key = Some old →
  S (employeeDepartment_count departmentId db_delete) =
  employeeDepartment_count departmentId db.
Proof.
  intros Hold. unfold employeeDepartment_count. simpl.
  rewrite map_filter_delete.
  assert (Hin : filter (inDepartment departmentId) (employeeDepartments db) !! key = Some old)
    by by apply map_lookup_filter_Some_2.
  rewrite <- map_size_insert_None with (i := key) (x := old)
    by apply lookup_delete_eq.
  by rewrite insert_delete_eq, insert_id.
Qed.

End Rollups.

Section ServiceFacts.
Variable toNumber : Decimal → Number.number.
Variable newDecimal : Number.number → Decimal.

Lemma store_eta (db : Store) :
  {| users := users db; departments := departments db;
     employeeDepartments := employeeDepartments db |} = db.
Proof. by destruct db. Qed.

Lemma notAdminNorManager_false user membership :
  user_role user = UserRole.ADMIN ∨
  role <$> membership = Some EmployeeDepartmentRole.MANAGER →
  notAdminNorManager user membership = false.
Proof.
  unfold notAdminNorManager. intros [H | H]; apply andb_false_iff; [left | right];
    by apply bool_decide_eq_false; intros Hne.
Qed.

Lemma hasPermission_true user membership :
  user_role user = UserRole.ADMIN ∨
  role <$> membership = Some EmployeeDepartmentRole.MANAGER ∨
  role <$> membership = Some EmployeeDepartmentRole.ADMIN →
  hasPermission user membership = true.
Proof.
  unfold hasPermission. intros [H | [H | H]];
    rewrite !orb_true_iff, !bool_decide_eq_true; auto.
Qed.

(** What a permitted call does when the department and the employee exist:
    the membership row is written at its key, nothing else changes, and the
    view carries the rollups of the new content. *)
Lemma addEmployeeToDepartment_permitted db userId departmentId employeeId
    role rate position user department :
  users db !! userId = Some user →
  user_role user = UserRole.ADMIN ∨
    DepartmentService.role <$> employeeDepartments db !! (userId, departmentId) =
      Some EmployeeDepartmentRole.MANAGER →
  departments db !! departmentId = Some department →
  is_Some (users db !! employeeId) →
  let data := {| role := role; hourlyRate := newDecimal rate; position := position |} in
  let db' := {| users := users db; departments := departments db;
                employeeDepartments :=
                  <[(employeeId, departmentId) := data]> (employeeDepartments db) |} in
  addEmployeeToDepartment toNumber newDecimal
    userId departmentId employeeId role rate position db =
  (Returned {| department := department;
               employeeCount := getTotalEmployeeCount departmentId db';
               totalCost := getEmployeeCost toNumber departmentId db' |}, db').
Proof.
  intros Huser Hperm Hdept [employee Hemp] data db'.
  unfold addEmployeeToDepartment, user_findUnique, employeeDepartment_find,
    getDepartmentById, department_findUnique.
  rewrite Huser, (notAdminNorManager_false _ _ Hperm), Hdept.
  unfold employeeDepartment_update, employeeDepartment_create.
  destruct (employeeDepartments db !! (employeeId, departmentId)) as [old|] eqn:Hold.
  - reflexivity.
  - by rewrite Hemp, Hdept.
Qed.

(** What a permitted removal of an existing member returns: the membership
    row is deleted and committed, and the rollups of the view are those of
    the content before the deletion. *)
Lemma removeEmployeeFromDepartment_permitted db userId departmentId employeeId
    user old department :
  users db !! userId = Some user →
  hasPermission user (employeeDepartments db !! (userId, departmentId)) = true →
  employeeDepartments db !! (employeeId, departmentId) = Some old →
  departments db !! departmentId = Some department →
  removeEmployeeFromDepartment toNumber userId departmentId employeeId db =
  (Returned {| department := department;
               employeeCount := getTotalEmployeeCount departmentId db;
               totalCost := getEmployeeCost toNumber departmentId db |},
   {| users := users db; departments := departments db;
      employeeDepartments := delete (employeeId, departmentId) (employeeDepartments db) |}).
Proof.
  intros Huser Hperm Hold Hdept.
  unfold removeEmployeeFromDepartment, transaction, removeEmployeeCallback,
    user_findUnique, employeeDepartment_find, employeeDepartment_delete,
    department_findUnique. simpl.
  by rewrite Huser, Hperm, Hold; simpl; rewrite Hdept.
Qed.

(** C2. The claim is that the removal recomputes the rollups inside the
    transaction, so that the returned view reflects the deletion.  In the
    scenario of the specification (Sales with A at rate 20 and B at rate 15)
    an administrator removes A: the row is deleted and committed, one member
    with total rate 15 remains, and the returned view still says two
    employees with total rate 35, because the rollups are queried through
    the global client and not through the transaction. *)
Theorem removeEmployee_returns_stale_rollups :
  ∃ view db',
    removeEmployeeFromDepartment toNumber "admin" "sales" "a" salesStore =
      (Returned view, db') ∧
    employeeDepartments db' !! ("a", "sales") = None ∧
    getTotalEmployeeCount "sales" db' = 1%nat ∧
    getEmployeeCost toNumber "sales" db' = toNumber (Q2Qc 15) ∧
    employeeCount view = 2%nat ∧
    totalCost view = toNumber (Q2Qc 35).
Proof.
  eexists _, _. split.
  - eapply removeEmployeeFromDepartment_permitted; reflexivity.
  - split_and!; try (vm_compute; reflexivity);
      simpl; unfold getEmployeeCost; f_equal; apply Qc_is_canon;
      vm_compute; reflexivity.
Qed.

(** X23. The total cost is the exact sum of the members' rates, recomputed
    from the rows.  When a permitted actor adds an employee who is not yet a
    member, with rate [R], the decimal total becomes the prior total plus
    [R], and the returned view carries its conversion to a number; removing
    that member takes [R] off again, and the datastore, hence the total that
    [getEmployeeCost] reports, is exactly what it was before the two calls,
    also after any number of such cycles.  The view returned by the removal
    carries the total from before the removal, prior plus [R]. *)
Theorem totalCost_add_then_remove db userId departmentId employeeId
    role rate position user department :
  users db !! userId = Some user →
  user_role user = UserRole.ADMIN ∨
    DepartmentService.role <$> employeeDepartments db !! (userId, departmentId) =
      Some EmployeeDepartmentRole.MANAGER →
  departments db !! departmentId = Some department →
  is_Some (users db !! employeeId) →
  employeeDepartments db !! (employeeId, departmentId) = None →
  let R := newDecimal rate in
  ∃ view1 db1 view2 db2,
    addEmployeeToDepartment toNumber newDecimal
      userId departmentId employeeId role rate position db = (Returned view1, db1) ∧
    employeeCostDecimal departmentId db1 = (employeeCostDecimal departmentId db + R)%Qc ∧
    totalCost view1 = toNumber (employeeCostDecimal departmentId db + R)%Qc ∧
    removeEmployeeFromDepartment toNumber userId departmentId employeeId db1 =
      (Returned view2, db2) ∧
    totalCost view2 = toNumber (employeeCostDecimal departmentId db + R)%Qc ∧
    employeeCostDecimal departmentId db2 = (employeeCostDecimal departmentId db1 - R)%Qc ∧
    db2 = db ∧
    getEmployeeCost toNumber departmentId db2 = getEmployeeCost toNumber departmentId db ∧
    ∀ n, Nat.iter n (addThenRemove toNumber newDecimal
                       userId departmentId employeeId role rate position) db = db.
Proof.
  intros Huser Hperm Hdept Hemp Hnew R.
  set (data := {| role := role; hourlyRate := R; position := position |}).
  set (db1 := {| users := users db; departments := departments db;
                 employeeDepartments :=
                   <[(employeeId, departmentId) := data]> (employeeDepartments db) |}).
  assert (Hcost1 : employeeCostDecimal departmentId db1 =
                   (employeeCostDecimal departmentId db + R)%Qc)
    by apply (cost_insert_new db employeeId departmentId data Hnew).
  assert (Hdb2 : {| users := users db1; departments := departments db1;
                    employeeDepartments :=
                      delete (employeeId, departmentId) (employeeDepartments db1) |} = db).
  { simpl. rewrite delete_insert_id by done. apply store_eta. }
  pose proof (addEmployeeToDepartment_permitted db userId departmentId employeeId
                role rate position user department Huser Hperm Hdept Hemp) as Hadd.
  cbv zeta in Hadd. fold R data db1 in Hadd.
  assert (Hremove :
    removeEmployeeFromDepartment toNumber userId departmentId employeeId db1 =
    (Returned {| department := department;
                 employeeCount := getTotalEmployeeCount departmentId db1;
                 totalCost := getEmployeeCost toNumber departmentId db1 |}, db)).
  { rewrite (removeEmployeeFromDepartment_permitted db1 userId departmentId employeeId
               user data department); [by rewrite Hdb2| | | |].
    - done.
    - apply hasPermission_true. destruct Hperm as [Hadmin | Hmanager]; [by left|].
      right; left. simpl. rewrite lookup_insert_ne; [done|].
      intros [= <-]. by rewrite Hnew in Hmanager.
    - simpl. apply lookup_insert_eq.
    - done. }
  eexists _, db1, _, db. split_and!.
  - exact Hadd.
  - done.
  - change (getEmployeeCost toNumber departmentId db1 =
            toNumber (employeeCostDecimal departmentId db + R)%Qc).
    unfold getEmployeeCost. by rewrite Hcost1.
  - exact Hremove.
  - change (getEmployeeCost toNumber departmentId db1 =
            toNumber (employeeCostDecimal departmentId db + R)%Qc).
    unfold getEmployeeCost. by rewrite Hcost1.
  - rewrite Hcost1. generalize (employeeCostDecimal departmentId db) R.
    clear. intros total r. decimal_ring.
  - done.
  - done.
  - induction n as [|n IH]; [done|]. simpl. rewrite IH.
    unfold addThenRemove. rewrite Hadd. simpl. by rewrite Hremove.
Qed.

(** C6. [addEmployeeToDepartment] is an upsert.  For a permitted actor, an
    existing department and an existing employee the call succeeds; the
    membership row of [(employeeId, departmentId)] holds the given role, rate
    and position afterwards and nothing else changes; the number of members
    of the department is unchanged when the employee was a member already
    and one more when not. *)
Theorem addEmployeeToDepartment_upsert db userId departmentId employeeId
    role rate position user department :
  users db !! userId = Some user →
  user_role user = UserRole.ADMIN ∨
    DepartmentService.role <$> employeeDepartments db !! (userId, departmentId) =
      Some EmployeeDepartmentRole.MANAGER →
  departments db !! departmentId = Some department →
  is_Some (users db !! employeeId) →
  ∃ view db',
    addEmployeeToDepartment toNumber newDecimal
      userId departmentId employeeId role rate position db = (Returned view, db') ∧
    employeeDepartments db' =
      <[(employeeId, departmentId) :=
          {| role := role; hourlyRate := newDecimal rate; position := position |}]>
        (employeeDepartments db) ∧
    users db' = users db ∧ departments db' = departments db ∧
    employeeCount view = getTotalEmployeeCount departmentId db' ∧
    getTotalEmployeeCount departmentId db' =
      match employeeDepartments db !! (employeeId, departmentId) with
      | Some _ => getTotalEmployeeCount departmentId db
      | None => S (getTotalEmployeeCount departmentId db)
      end.
Proof.
  intros Huser Hperm Hdept Hemp. eexists _, _. split_and!.
  - by apply addEmployeeToDepartment_permitted with (user := user).
  - reflexivity.
  - reflexivity.
  - reflexivity.
  - reflexivity.
  - unfold getTotalEmployeeCount.
    destruct (employeeDepartments db !! (employeeId, departmentId)) as [old|] eqn:Hold.
    + by apply count_insert_existing with (old := old).
    + by apply count_insert_new.
Qed.

(** C7. An actor whose global role is not [ADMIN] (or who is not a user at
    all) can neither create nor delete a department: both calls return
    [null] after the permission message and leave the datastore as it was,
    whatever roles the actor holds within departments. *)
Theorem create_delete_require_global_admin db userId :
  user_role <$> users db !! userId ≠ Some UserRole.ADMIN →
  (∀ name info, createDepartment userId name info db = (Null PermissionDenied, db)) ∧
  (∀ id, deleteDepartment userId id db = (Null PermissionDenied, db)).
Proof.
  intros Hrole. unfold createDepartment, deleteDepartment, user_findUnique.
  destruct (users db !! userId) as [user|]; [|done].
  case_decide as Hadmin; [|done]. simpl in Hrole. congruence.
Qed.

(** C8. When a permitted actor removes an employee who has no membership in
    the department, the call returns [null] after the message "Employee not
    found in department" and the datastore is unchanged. *)
Theorem removeEmployee_absent_not_found db userId departmentId employeeId user :
  users db !! userId = Some user →
  hasPermission user (employeeDepartments db !! (userId, departmentId)) = true →
  employeeDepartments db !! (employeeId, departmentId) = None →
  removeEmployeeFromDepartment toNumber userId departmentId employeeId db =
  (Null EmployeeNotFound, db).
Proof.
  intros Huser Hperm Habsent.
  unfold removeEmployeeFromDepartment, transaction, removeEmployeeCallback,
    user_findUnique, employeeDepartment_find. simpl.
  by rewrite Huser, Hperm, Habsent.
Qed.

(** C9. Every successful [createDepartment] returns a view with
    [employeeCount] 0 and [totalCost] 0. *)
Theorem createDepartment_fresh_view db userId name info view db' :
  createDepartment userId name info db = (Returned view, db') →
  employeeCount view = 0%nat ∧ totalCost view = Number.zero.
Proof.
  unfold createDepartment. destruct (user_findUnique userId db) as [user|]; [|done].
  case_decide; [|done]. simpl. by intros [= <- _].
Qed.

(** An administrator always succeeds, and the new department is stored
    under an id that no department had. *)
Lemma createDepartment_admin db userId name info :
  user_role <$> users db !! userId = Some UserRole.ADMIN →
  ∃ view, createDepartment userId name info db =
            (Returned view,
             {| users := users db;
                departments := <[id (department view) := department view]> (departments db);
                employeeDepartments := employeeDepartments db |}) ∧
          departments db !! id (department view) = None ∧
          DepartmentService.name (department view) = name ∧
          DepartmentService.info (department view) = info.
Proof.
  intros Hrole. unfold createDepartment, user_findUnique.
  destruct (users db !! userId) as [user|]; [|done].
  injection Hrole as Hrole. case_decide; [|done]. simpl.
  exists {| department := {| id := fresh (dom (departments db)); name := name; info := info |};
            employeeCount := 0; totalCost := Number.zero |}.
  split; [reflexivity|]. simpl. split; [|done].
  apply not_elem_of_dom, is_fresh.
Qed.

End ServiceFacts.

(** ** The theorems at the scenario *)

Lemma totalCost_add_then_remove_witness :
  ∃ view1 db1 view2 db2,
    addEmployeeToDepartment quotientToNumber integerToDecimal
      "admin" "sales" "c" EmployeeDepartmentRole.MEMBER (Number.ofZ 10) "temp" salesStore =
      (Returned view1, db1) ∧
    employeeCostDecimal "sales" db1 =
      (employeeCostDecimal "sales" salesStore + integerToDecimal (Number.ofZ 10))%Qc ∧
    totalCost view1 =
      quotientToNumber
        (employeeCostDecimal "sales" salesStore + integerToDecimal (Number.ofZ 10))%Qc ∧
    removeEmployeeFromDepartment quotientToNumber "admin" "sales" "c" db1 =
      (Returned view2, db2) ∧
    totalCost view2 =
      quotientToNumber
        (employeeCostDecimal "sales" salesStore + integerToDecimal (Number.ofZ 10))%Qc ∧
    employeeCostDecimal "sales" db2 =
      (employeeCostDecimal "sales" db1 - integerToDecimal (Number.ofZ 10))%Qc ∧
    db2 = salesStore ∧
    getEmployeeCost quotientToNumber "sales" db2 =
      getEmployeeCost quotientToNumber "sales" salesStore ∧
    ∀ n, Nat.iter n (addThenRemove quotientToNumber integerToDecimal
                       "admin" "sales" "c" EmployeeDepartmentRole.MEMBER
                       (Number.ofZ 10) "temp") salesStore = salesStore.
Proof.
  apply (totalCost_add_then_remove quotientToNumber integerToDecimal salesStore
           "admin" "sales" "c" EmployeeDepartmentRole.MEMBER (Number.ofZ 10) "temp"
           (mkUser UserRole.ADMIN) sales).
  - reflexivity.
  - left. reflexivity.
  - reflexivity.
  - exists (mkUser UserRole.USER). reflexivity.
  - reflexivity.
Defined.

(** C3. The claim is that the total cost after removing a member is the
    total before the removal minus the rate of the member.  In the scenario
    of the specification (Sales with A at rate 20 and B at rate 15, total
    35) an administrator adds C at rate 10: the total is 45, and the
    returned view says so.  The administrator then removes C: the datastore
    is again the one before the two calls and the total recomputed from its
    rows is 35, but the view returned by the removal says 45, the total
    before the removal, because the rollups are queried through the global
    client and not through the transaction. *)
Theorem removal_returns_total_before_removal :
  ∃ view1 db1 view2 db2,
    employeeCostDecimal "sales" salesStore = Q2Qc 35 ∧
    integerToDecimal (Number.ofZ 10) = Q2Qc 10 ∧
    addEmployeeToDepartment quotientToNumber integerToDecimal
      "admin" "sales" "c" EmployeeDepartmentRole.MEMBER (Number.ofZ 10) "temp" salesStore =
      (Returned view1, db1) ∧
    employeeCostDecimal "sales" db1 = Q2Qc 45 ∧
    totalCost view1 = Number.ofZ 45 ∧
    removeEmployeeFromDepartment quotientToNumber "admin" "sales" "c" db1 =
      (Returned view2, db2) ∧
    db2 = salesStore ∧
    getEmployeeCost quotientToNumber "sales" db2 = Number.ofZ 35 ∧
    totalCost view2 = Number.ofZ 45 ∧
    totalCost view2 ≠ Number.ofZ 35.
Proof.
  eexists _, _, _, _. split_and!.
  - apply Qc_is_canon. vm_compute. reflexivity.
  - apply Qc_is_canon. vm_compute. reflexivity.
  - apply (addEmployeeToDepartment_permitted quotientToNumber integerToDecimal salesStore
             "admin" "sales" "c" EmployeeDepartmentRole.MEMBER (Number.ofZ 10) "temp"
             (mkUser UserRole.ADMIN) sales); [reflexivity | by left | reflexivity |].
    exists (mkUser UserRole.USER). reflexivity.
  - apply Qc_is_canon. vm_compute. reflexivity.
  - vm_compute. reflexivity.
  - apply (removeEmployeeFromDepartment_permitted quotientToNumber _
             "admin" "sales" "c" (mkUser UserRole.ADMIN)
             (mkEmployeeDepartment EmployeeDepartmentRole.MEMBER
                (integerToDecimal (Number.ofZ 10)) "temp") sales); reflexivity.
  - cbn [users departments employeeDepartments]. rewrite delete_insert_id by reflexivity.
    reflexivity.
  - vm_compute. reflexivity.
  - vm_compute. reflexivity.
  - vm_compute. discriminate.
Qed.

Lemma addEmployeeToDepartment_upsert_witness :
  ∃ view db',
    addEmployeeToDepartment quotientToNumber integerToDecimal
      "b" "sales" "a" EmployeeDepartmentRole.MANAGER (Number.ofZ 25) "senior clerk"
      salesStore = (Returned view, db') ∧
    employeeDepartments db' =
      <[("a", "sales") :=
          {| role := EmployeeDepartmentRole.MANAGER;
             hourlyRate := integerToDecimal (Number.ofZ 25);
             position := "senior clerk" |}]> (employeeDepartments salesStore) ∧
    users db' = users salesStore ∧ departments db' = departments salesStore ∧
    employeeCount view = getTotalEmployeeCount "sales" db' ∧
    getTotalEmployeeCount "sales" db' = getTotalEmployeeCount "sales" salesStore.
Proof.
  apply (addEmployeeToDepartment_upsert quotientToNumber integerToDecimal salesStore
           "b" "sales" "a" EmployeeDepartmentRole.MANAGER (Number.ofZ 25) "senior clerk"
           (mkUser UserRole.USER) sales).
  - reflexivity.
  - right. reflexivity.
  - reflexivity.
  - exists (mkUser UserRole.USER). reflexivity.
Defined.

(** B is the manager of Sales and not a global administrator. *)
Lemma create_delete_require_global_admin_witness :
  (∀ name info, createDepartment "b" name info salesStore = (Null PermissionDenied, salesStore)) ∧
  (∀ id, deleteDepartment "b" id salesStore = (Null PermissionDenied, salesStore)).
Proof.
  apply (create_delete_require_global_admin salesStore "b").
  vm_compute. discriminate.
Defined.

Lemma removeEmployee_absent_not_found_witness :
  removeEmployeeFromDepartment quotientToNumber "b" "sales" "c" salesStore =
  (Null EmployeeNotFound, salesStore).
Proof.
  apply (removeEmployee_absent_not_found quotientToNumber salesStore
           "b" "sales" "c" (mkUser UserRole.USER)); reflexivity.
Defined.

Lemma createDepartment_fresh_view_witness :
  ∃ view db',
    createDepartment "admin" "Support" None salesStore = (Returned view, db') ∧
    employeeCount view = 0%nat ∧ totalCost view = Number.zero.
Proof.
  eexists _, _. split; [vm_compute; reflexivity|].
  eapply (createDepartment_fresh_view salesStore "admin" "Support" None).
  vm_compute. reflexivity.
Defined.

End DepartmentServiceFacts.

(* ===================================================================== *)
(** * Properties of the arithmetic of numbers *)
(* ===================================================================== *)

Module NumberFacts.
Import Number.

Lemma pow2_pos k : 0 < 2 ^ k ∨ k < 0.
Proof. destruct (Z.le_gt_cases 0 k); [left; by apply Z.pow_pos_nonneg | by right]. Qed.

Lemma pow2_succ k : 0 < k → 2 ^ k = 2 * 2 ^ (k - 1).
Proof. intros Hk. rewrite <- Z.pow_succ_r by lia. f_equal. lia. Qed.

Lemma digits2_pos_size p : digits2_pos p = Pos.size p.
Proof. induction p; simpl; congruence. Qed.

Lemma digits_bounds p :
  2 ^ (Zpos (digits2_pos p) - 1) <= Zpos p < 2 ^ Zpos (digits2_pos p).
Proof.
  rewrite digits2_pos_size.
  pose proof (Pos.size_gt p) as Hgt. pose proof (Pos.size_le p) as Hle.
  apply Pos2Z.pos_lt_pos in Hgt. apply Pos2Z.pos_le_pos in Hle.
  rewrite Pos2Z.inj_pow in Hgt, Hle.
  change (Z.pos p~0) with (2 * Z.pos p) in Hle.
  rewrite (pow2_succ (Z.pos (Pos.size p))) in Hle by lia. lia.
Qed.

Lemma digits_unique p d :
  2 ^ (d - 1) <= Zpos p < 2 ^ d → Zpos (digits2_pos p) = d.
Proof.
  intros [Hlo Hhi]. pose proof (digits_bounds p) as [Hlo' Hhi'].
  destruct (Z.lt_trichotomy (Zpos (digits2_pos p)) d) as [Hlt | [Heq | Hgt]]; [|done|].
  - exfalso. assert (2 ^ Zpos (digits2_pos p) <= 2 ^ (d - 1))
      by (apply Z.pow_le_mono_r; lia). lia.
  - exfalso. assert (2 ^ d <= 2 ^ (Zpos (digits2_pos p) - 1))
      by (apply Z.pow_le_mono_r; lia). lia.
Qed.

(** Shifting right a mantissa that ends in at least as many zero bits loses
    nothing. *)
Lemma shr_1_double m :
  0 < m → shr_1 {| shr_m := 2 * m; shr_r := false; shr_s := false |} =
          {| shr_m := m; shr_r := false; shr_s := false |}.
Proof. destruct m; [lia | reflexivity | lia]. Qed.

Lemma iter_shr_1_exact n m :
  0 < m →
  SpecFloat.iter_pos shr_1 n {| shr_m := m * 2 ^ Zpos n; shr_r := false; shr_s := false |} =
  {| shr_m := m; shr_r := false; shr_s := false |}.
Proof.
  revert m. induction n as [n IH | n IH |]; intros m Hm.
  - replace (m * 2 ^ Zpos n~1) with (2 * (m * 2 ^ Zpos n * 2 ^ Zpos n)).
    + assert (0 < 2 ^ Zpos n) by (apply Z.pow_pos_nonneg; lia).
      cbn [SpecFloat.iter_pos].
      rewrite shr_1_double by nia. rewrite IH by nia. by apply IH.
    + change (Zpos n~1) with (2 * Zpos n + 1).
      rewrite Z.pow_add_r, Z.pow_1_r by lia.
      replace (2 * Zpos n) with (Zpos n + Zpos n) by lia.
      rewrite Z.pow_add_r by lia. ring.
  - replace (m * 2 ^ Zpos n~0) with (m * 2 ^ Zpos n * 2 ^ Zpos n).
    + assert (0 < 2 ^ Zpos n) by (apply Z.pow_pos_nonneg; lia).
      cbn [SpecFloat.iter_pos].
      rewrite IH by nia. by apply IH.
    + change (Zpos n~0) with (2 * Zpos n).
      replace (2 * Zpos n) with (Zpos n + Zpos n) by lia.
      rewrite Z.pow_add_r by lia. ring.
  - rewrite Z.pow_1_r, Z.mul_comm. cbn [SpecFloat.iter_pos]. by apply shr_1_double.
Qed.

(** Doubling a positive [n] times. *)
Lemma iter_xO_pow m n : Zpos (Pos.iter xO m n) = Zpos m * 2 ^ Zpos n.
Proof.
  revert m. induction n as [| n IH] using Pos.peano_ind; intros m.
  - simpl. lia.
  - rewrite Pos.iter_succ.
    change (Zpos (Pos.iter xO m n)~0) with (2 * Zpos (Pos.iter xO m n)).
    rewrite IH, Pos2Z.inj_succ, Z.pow_succ_r by lia. ring.
Qed.

Lemma fexp_eq x : fexp 53 1024 x = Z.max (x - 53) (-1074).
Proof. reflexivity. Qed.

Lemma loc_of_shr_record_of_loc m l :
  loc_of_shr_record (shr_record_of_loc m l) = l.
Proof. by destruct l as [|[]]. Qed.

Lemma shr_m_of_loc m l : shr_m (shr_record_of_loc m l) = m.
Proof. by destruct l as [|[]]. Qed.

(** A mantissa of 53 digits is not shifted. *)
Lemma shr_fexp_53 m e l :
  Zpos (digits2_pos m) = 53 → -1074 <= e →
  shr_fexp 53 1024 (Zpos m) e l = (shr_record_of_loc (Zpos m) l, e).
Proof.
  intros Hd He. unfold shr_fexp. cbn [Zdigits2]. rewrite Hd, fexp_eq.
  replace (Z.max (53 + e - 53) (-1074) - e) with 0 by lia. reflexivity.
Qed.

(** A mantissa of 54 digits is shifted by one bit. *)
Lemma shr_fexp_54 m e l :
  Zpos (digits2_pos m) = 54 → -1075 <= e →
  shr_fexp 53 1024 (Zpos m) e l = (shr_1 (shr_record_of_loc (Zpos m) l), e + 1).
Proof.
  intros Hd He. unfold shr_fexp. cbn [Zdigits2]. rewrite Hd, fexp_eq.
  replace (Z.max (54 + e - 53) (-1074) - e) with 1 by lia. reflexivity.
Qed.

(** The end of [binary_round_aux]: a rounded mantissa [m1] between [2^52]
    and [2^53], the latter included, is renormalized. *)
Lemma binary_round_finish s m1 e :
  2 ^ 52 <= m1 <= 2 ^ 53 → -1074 <= e → e + 1 <= 971 →
  ∃ m e', (let '(mrs, e'') := shr_fexp 53 1024 m1 e loc_Exact in
           match shr_m mrs with
           | Z0 => S754_zero s
           | Zpos m => if e'' <=? 1024 - 53 then S754_finite s m e'' else S754_infinity s
           | Zneg _ => S754_nan
           end) = S754_finite s m e' ∧
          2 ^ 52 <= Zpos m < 2 ^ 53 ∧ e <= e' <= e + 1 ∧
          Zpos m * 2 ^ (e' - e) = m1.
Proof.
  intros Hm1 He He'. destruct m1 as [|p|p]; [lia| |lia].
  destruct (Z.eq_dec (Zpos p) (2 ^ 53)) as [Heq | Hne].
  - injection Heq as ->. exists (2 ^ 52)%positive, (e + 1).
    rewrite shr_fexp_54 by (done || lia). cbn [shr_record_of_loc shr_1 shr_m].
    destruct (Z.leb_spec (e + 1) (1024 - 53)); [|lia].
    replace (e + 1 - e) with 1 by lia. split_and!; try done; lia.
  - exists p, e. rewrite shr_fexp_53; [|apply digits_unique; lia|lia].
    cbn [shr_record_of_loc shr_m].
    destruct (Z.leb_spec e (1024 - 53)); [|lia].
    rewrite Z.sub_diag. split_and!; try done; lia.
Qed.

(** [binary_round_aux] after its first shift. *)
Lemma binary_round_aux_rounded s mx ex lx mrs e m1 :
  shr_fexp 53 1024 mx ex lx = (mrs, e) →
  round_nearest_even (shr_m mrs) (loc_of_shr_record mrs) = m1 →
  2 ^ 52 <= m1 <= 2 ^ 53 → -1074 <= e → e + 1 <= 971 →
  ∃ m e', binary_round_aux 53 1024 s mx ex lx = S754_finite s m e' ∧
          2 ^ 52 <= Zpos m < 2 ^ 53 ∧ e <= e' <= e + 1 ∧
          Zpos m * 2 ^ (e' - e) = m1.
Proof.
  intros Hshr Hrnd Hm1 He He'. unfold binary_round_aux. rewrite Hshr, Hrnd.
  by apply binary_round_finish.
Qed.

(** An exactly representable value [p * 2^(k + e)], given with mantissa
    [p * 2^k], is normalized to 53 digits. *)
Lemma binary_round_exact s mx p k e :
  let d := Zpos (digits2_pos p) in
  Zpos mx = Zpos p * 2 ^ k → 0 <= k → d <= 53 →
  -1074 <= e + k + d - 53 → e + k + d - 53 + 1 <= 971 →
  ∃ m, binary_round 53 1024 s mx e = S754_finite s m (e + k + d - 53) ∧
       Zpos m = Zpos p * 2 ^ (53 - d).
Proof.
  intros d Hmx Hk Hd Hlo Hhi. pose proof (digits_bounds p) as [Hplo Hphi]. fold d in Hplo, Hphi.
  assert (Hpow : ∀ i j, 0 <= i → 0 <= j → 2 ^ (i + j) = 2 ^ i * 2 ^ j)
    by (intros; by apply Z.pow_add_r).
  assert (Hpos : ∀ i, 0 <= i → 0 < 2 ^ i) by (intros; by apply Z.pow_pos_nonneg).
  assert (Hdmx : Zpos (digits2_pos mx) = d + k).
  { apply digits_unique. rewrite Hmx.
    replace (d + k - 1) with ((d - 1) + k) by lia.
    rewrite !Hpow by lia. pose proof (Hpos k Hk). nia. }
  assert (H53 : 2 ^ 52 <= Zpos p * 2 ^ (53 - d) < 2 ^ 53).
  { replace 52 with ((d - 1) + (53 - d)) at 1 by lia.
    replace 53 with (d + (53 - d)) at 4 by lia.
    rewrite !Hpow by lia. pose proof (Hpos (53 - d) ltac:(lia)). nia. }
  unfold binary_round. rewrite Hdmx, fexp_eq.
  replace (Z.max (d + k + e - 53) (-1074)) with (e + k + d - 53) by lia.
  unfold shl_align.
  destruct (e + k + d - 53 - e) as [|n|delta] eqn:Hshift.
  - (* already 53 digits *)
    assert (k = 53 - d) as -> by lia.
    destruct (binary_round_aux_rounded s (Zpos mx) e loc_Exact
                (shr_record_of_loc (Zpos mx) loc_Exact) e (Zpos mx))
      as (m & e' & -> & Hm & He' & Hval); try (done || lia).
    { apply shr_fexp_53; lia. }
    assert (e' = e) as -> by (destruct (Z.eq_dec e' e); [done|];
      replace (e' - e) with 1 in Hval by lia; lia).
    rewrite Z.sub_diag in Hval. exists m. split; [f_equal; lia | lia].
  - (* more than 53 digits: the low bits are zero *)
    assert (Hn : Zpos n = k - (53 - d)) by lia.
    pose (m1 := Zpos p * 2 ^ (53 - d)).
    destruct (binary_round_aux_rounded s (Zpos mx) e loc_Exact
                {| shr_m := m1; shr_r := false; shr_s := false |} (e + Zpos n) m1)
      as (m & e' & -> & Hm & He' & Hval); try (done || lia).
    { unfold shr_fexp. cbn [Zdigits2]. rewrite Hdmx, fexp_eq.
      replace (Z.max (d + k + e - 53) (-1074) - e) with (Zpos n) by lia.
      unfold shr. f_equal. cbn [shr_record_of_loc].
      replace (Zpos mx) with (m1 * 2 ^ Zpos n).
      - apply iter_shr_1_exact. unfold m1. lia.
      - unfold m1. rewrite Hmx, Hn, <- Z.mul_assoc, <- Hpow by lia. do 2 f_equal. lia. }
    assert (e' = e + Zpos n) as -> by (destruct (Z.eq_dec e' (e + Zpos n)); [done|];
      replace (e' - (e + Zpos n)) with 1 in Hval by lia; unfold m1 in *; lia).
    rewrite Z.sub_diag in Hval. exists m. split; [f_equal; lia | unfold m1 in Hval; lia].
  - (* fewer than 53 digits: shifted left *)
    assert (Hdelta : Zpos delta = 53 - d - k) by lia.
    assert (Hmz : Zpos (Pos.iter xO mx delta) = Zpos p * 2 ^ (53 - d)).
    { rewrite iter_xO_pow, Hmx, Hdelta, <- Z.mul_assoc, <- Hpow by lia. do 2 f_equal. lia. }
    destruct (binary_round_aux_rounded s (Zpos (Pos.iter xO mx delta)) (e + k + d - 53) loc_Exact
                (shr_record_of_loc (Zpos (Pos.iter xO mx delta)) loc_Exact)
                (e + k + d - 53) (Zpos (Pos.iter xO mx delta)))
      as (m & e' & -> & Hm & He' & Hval); try (done || lia).
    { apply shr_fexp_53; [apply digits_unique|]; lia. }
    assert (e' = e + k + d - 53) as -> by (destruct (Z.eq_dec e' (e + k + d - 53)); [done|];
      replace (e' - (e + k + d - 53)) with 1 in Hval by lia; lia).
    rewrite Z.sub_diag in Hval. exists m. split; [done | lia].
Qed.

(** ** Integers as numbers *)

Lemma ofZ_zero : ofZ 0 = S754_zero false.
Proof. reflexivity. Qed.

(** A positive integer below [2^53] is represented exactly, with a
    mantissa of 53 digits. *)
Lemma ofZ_pos (p : positive) :
  let d := Zpos (digits2_pos p) in
  Zpos p < 2 ^ 53 →
  ∃ m, ofZ (Zpos p) = S754_finite false m (d - 53) ∧ Zpos m = Zpos p * 2 ^ (53 - d).
Proof.
  intros d Hp. pose proof (digits_bounds p) as [Hlo _]. fold d in Hlo.
  assert (Hd : d <= 53).
  { destruct (Z.le_gt_cases d 53); [done|].
    assert (2 ^ 53 <= 2 ^ (d - 1)) by (apply Z.pow_le_mono_r; lia). lia. }
  assert (0 < d) by (unfold d; lia).
  destruct (binary_round_exact false p p 0 0) as (m & Hm & Hval); try lia.
  exists m. unfold ofZ, binary_normalize, prec, emax. rewrite Hm. split; [f_equal; lia | done].
Qed.

Lemma digits_mono (p q : positive) :
  Zpos p <= Zpos q → Zpos (digits2_pos p) <= Zpos (digits2_pos q).
Proof.
  intros Hpq. pose proof (digits_bounds p) as [Hlo _]. pose proof (digits_bounds q) as [_ Hhi].
  destruct (Z.le_gt_cases (Zpos (digits2_pos p)) (Zpos (digits2_pos q))); [done|].
  assert (2 ^ Zpos (digits2_pos q) <= 2 ^ (Zpos (digits2_pos p) - 1))
    by (apply Z.pow_le_mono_r; lia). lia.
Qed.

(** The difference of two time values is computed exactly. *)
Lemma sub_ofZ a b :
  0 <= b <= a → a < 2 ^ 53 → sub (ofZ a) (ofZ b) = ofZ (a - b).
Proof.
  intros [Hb Hab] Ha.
  destruct b as [|q|q]; [|clear Hb|lia].
  { rewrite Z.sub_0_r. destruct a as [|p|p]; [done| |lia].
    destruct (ofZ_pos p Ha) as (m & -> & _). reflexivity. }
  destruct a as [|p|p]; [lia| |lia].
  destruct (ofZ_pos p Ha) as (ma & -> & Hma).
  destruct (ofZ_pos q ltac:(lia)) as (mb & -> & Hmb).
  pose proof (digits_mono q p Hab) as Hd.
  pose proof (digits_bounds q) as [Hqlo Hqhi].
  set (da := Zpos (digits2_pos p)) in *. set (db := Zpos (digits2_pos q)) in *.
  assert (0 < db) by (unfold db; lia).
  assert (Hda : da <= 53).
  { pose proof (digits_bounds p) as [Hlo _]. fold da in Hlo.
    destruct (Z.le_gt_cases da 53); [done|].
    assert (2 ^ 53 <= 2 ^ (da - 1)) by (apply Z.pow_le_mono_r; lia). lia. }
  unfold sub, SFsub, prec, emax.
  replace (Z.min (da - 53) (db - 53)) with (db - 53) by lia.
  assert (Halign_a : Zpos (fst (shl_align ma (da - 53) (db - 53))) = Zpos p * 2 ^ (53 - db)).
  { unfold shl_align. destruct (db - 53 - (da - 53)) as [|n|delta] eqn:Hshift; [|lia|].
    - cbn [fst]. rewrite Hma. do 2 f_equal. lia.
    - cbn [fst]. rewrite iter_xO_pow, Hma, <- Z.mul_assoc, <- Z.pow_add_r by lia.
      do 2 f_equal. lia. }
  assert (Halign_b : Zpos (fst (shl_align mb (db - 53) (db - 53))) = Zpos q * 2 ^ (53 - db)).
  { unfold shl_align. rewrite Z.sub_diag. done. }
  unfold cond_Zopp. rewrite Halign_a, Halign_b, <- Z.mul_sub_distr_r.
  destruct (Zpos p - Zpos q) as [|r|r] eqn:Hdiff; [done| |lia].
  assert (Hr : Zpos r < 2 ^ 53) by lia.
  destruct (ofZ_pos r Hr) as (m & -> & Hm).
  pose proof (digits_mono r p ltac:(lia)) as Hdr.
  assert (0 < 2 ^ (53 - db)) by (apply Z.pow_pos_nonneg; lia).
  destruct (Zpos r * 2 ^ (53 - db)) as [|mx|mx] eqn:Hmx; [lia| |lia].
  unfold binary_normalize.
  destruct (binary_round_exact false mx r (53 - db) (db - 53)) as (m' & -> & Hm');
    try (done || lia).
  f_equal; [lia | lia].
Qed.

Lemma milliseconds_per_hour :
  mul (mul (ofZ 1000) (ofZ 60)) (ofZ 60) = ofZ 3600000.
Proof. vm_compute. reflexivity. Qed.

(** ** Division *)

(** The position of the exact quotient [q + r / den] between [q] and
    [q + 1]. *)
Lemma new_location_spec den r :
  0 < den → 0 <= r < den →
  new_location den r = if r =? 0 then loc_Exact else loc_Inexact (2 * r ?= den).
Proof.
  intros Hden Hr. unfold new_location, new_location_even, new_location_odd.
  destruct (Z.even den) eqn:Heven; [done|].
  destruct (r =? 0); [done|]. f_equal.
  assert (Hodd : Z.odd den = true) by (rewrite <- Z.negb_even, Heven; done).
  apply Z.odd_spec in Hodd as [k Hk].
  destruct (Z.compare_spec (2 * r + 1) den), (Z.compare_spec (2 * r) den); done || lia.
Qed.

Lemma round_nearest_even_bound q r den :
  0 < den → 0 <= r < den →
  let m1 := round_nearest_even q (new_location den r) in
  q <= m1 <= q + 1 ∧ 2 * Z.abs (den * m1 - (den * q + r)) <= den.
Proof.
  intros Hden Hr. rewrite new_location_spec by done. simpl.
  destruct (Z.eqb_spec r 0); simpl; [lia|].
  destruct (Z.compare_spec (2 * r) den); simpl; [destruct (Z.even q)| |]; lia.
Qed.

Lemma round_shifted_bound q r den :
  0 < q → 0 < den → 0 <= r < den →
  let mrs := shr_1 (shr_record_of_loc q (new_location den r)) in
  let m1 := round_nearest_even (shr_m mrs) (loc_of_shr_record mrs) in
  q - 1 <= 2 * m1 <= q + 1 ∧ 2 * Z.abs (2 * den * m1 - (den * q + r)) <= 2 * den.
Proof.
  intros Hq Hden Hr. rewrite new_location_spec by done.
  destruct (Z.eqb_spec r 0); simpl.
  - destruct q as [|[p|p|]|]; try lia; simpl; repeat case_match; lia.
  - destruct (Z.compare_spec (2 * r) den); destruct q as [|[p|p|]|]; try lia; simpl;
      repeat case_match; lia.
Qed.

(** The quotient of two numbers with mantissas of 53 digits, away from
    overflow and underflow, is within half a unit in the last place of the
    exact quotient. *)
Lemma div_finite mx ex my ey :
  Zpos (digits2_pos mx) = 53 → Zpos (digits2_pos my) = 53 →
  let e0 := ex - ey - 53 in
  -1074 <= e0 → e0 + 2 <= 971 →
  ∃ m e, div (S754_finite false mx ex) (S754_finite false my ey) = S754_finite false m e ∧
         2 ^ 52 <= Zpos m < 2 ^ 53 ∧ e0 <= e <= e0 + 2 ∧
         2 * Z.abs (Zpos my * (Zpos m * 2 ^ (e - e0)) - Zpos mx * 2 ^ 53)
           <= Zpos my * 2 ^ (e - e0).
Proof.
  intros Hdx Hdy e0 Hlo Hhi.
  pose proof (digits_bounds mx) as Hmx. pose proof (digits_bounds my) as Hmy.
  rewrite Hdx in Hmx. rewrite Hdy in Hmy. change (53 - 1) with 52 in Hmx, Hmy.
  unfold div, SFdiv, SFdiv_core_binary, prec, emax. cbn [Zdigits2 xorb].
  rewrite Hdx, Hdy, fexp_eq.
  replace (Z.min (Z.max (53 + ex - (53 + ey) - 53) (-1074)) (ex - ey)) with e0 by lia.
  replace (ex - ey - e0) with 53 by lia.
  rewrite Z.shiftl_mul_pow2 by lia.
  set (N := Zpos mx * 2 ^ 53).
  pose proof (Z_div_mod N (Zpos my) ltac:(lia)) as Hdiv.
  destruct (Z.div_eucl N (Zpos my)) as [q r]. destruct Hdiv as [HN Hr].
  assert (Hq : 2 ^ 52 <= q < 2 ^ 54) by (unfold N in HN; nia).
  destruct q as [|qp|qp]; [lia| |lia].
  destruct (Z.lt_ge_cases (Zpos qp) (2 ^ 53)) as [Hsmall | Hlarge].
  - pose proof (round_nearest_even_bound (Zpos qp) r (Zpos my) ltac:(lia) Hr) as [Hm1 Hbound].
    destruct (binary_round_aux_rounded false (Zpos qp) e0 (new_location (Zpos my) r)
                (shr_record_of_loc (Zpos qp) (new_location (Zpos my) r)) e0
                (round_nearest_even (Zpos qp) (new_location (Zpos my) r)))
      as (m & e & -> & Hm & He & Hval); try (done || lia).
    { apply shr_fexp_53; [apply digits_unique|]; lia. }
    { by rewrite shr_m_of_loc, loc_of_shr_record_of_loc. }
    exists m, e. split_and!; try (done || lia).
    rewrite Hval. assert (1 <= 2 ^ (e - e0)) by (apply (Z.pow_le_mono_r 2 0); lia). nia.
  - pose proof (round_shifted_bound (Zpos qp) r (Zpos my) ltac:(lia) ltac:(lia) Hr)
      as [Hm1 Hbound].
    set (mrs := shr_1 (shr_record_of_loc (Zpos qp) (new_location (Zpos my) r))) in *.
    set (m1 := round_nearest_even (shr_m mrs) (loc_of_shr_record mrs)) in *.
    destruct (binary_round_aux_rounded false (Zpos qp) e0 (new_location (Zpos my) r)
                mrs (e0 + 1) m1)
      as (m & e & -> & Hm & He & Hval); try (done || lia).
    { apply shr_fexp_54; [apply digits_unique|]; lia. }
    exists m, e. split_and!; try (done || lia).
    replace (e - e0) with (1 + (e - (e0 + 1))) by lia.
    rewrite Z.pow_add_r, Z.pow_1_r by lia.
    replace (Zpos m * (2 * 2 ^ (e - (e0 + 1)))) with (2 * (Zpos m * 2 ^ (e - (e0 + 1)))) by ring.
    rewrite Hval.
    assert (1 <= 2 ^ (e - (e0 + 1))) by (apply (Z.pow_le_mono_r 2 0); lia). nia.
Qed.

(** A positive number of milliseconds below [2^53] divided by the
    milliseconds of an hour: the result [m * 2^e] has [e <= -21] and is
    within half a unit in the last place of the exact quotient. *)
Lemma div_milliseconds (ms : positive) :
  Zpos ms < 2 ^ 53 →
  ∃ m e, div (ofZ (Zpos ms)) (ofZ 3600000) = S754_finite false m e ∧
         Zpos m < 2 ^ 53 ∧ -105 <= e <= -21 ∧
         2 * Z.abs (3600000 * Zpos m - Zpos ms * 2 ^ (- e)) <= 3600000.
Proof.
  intros Hms. destruct (ofZ_pos ms Hms) as (mx & -> & Hmx).
  pose proof (digits_bounds ms) as [Hdlo Hdhi].
  set (d := Zpos (digits2_pos ms)) in *.
  assert (Hd : 1 <= d <= 53).
  { split; [unfold d; lia|]. destruct (Z.le_gt_cases d 53); [done|].
    assert (2 ^ 53 <= 2 ^ (d - 1)) by (apply Z.pow_le_mono_r; lia). lia. }
  change (ofZ 3600000) with (S754_finite false 7730941132800000 (-31)).
  assert (Hmx53 : 2 ^ 52 <= Zpos mx < 2 ^ 53).
  { rewrite Hmx. replace 52 with ((d - 1) + (53 - d)) at 1 by lia.
    replace 53 with (d + (53 - d)) at 4 by lia.
    rewrite !Z.pow_add_r by lia.
    assert (0 < 2 ^ (53 - d)) by (apply Z.pow_pos_nonneg; lia). nia. }
  destruct (div_finite mx (d - 53) 7730941132800000 (-31))
    as (m & e & -> & Hm & He & Hbound); try (done || lia).
  { apply digits_unique. lia. }
  exists m, e.
  set (e0 := d - 53 - -31 - 53) in *.
  assert (HD : 2 ^ (53 - d) * 2 ^ 53 = 2 ^ 31 * (2 ^ (e - e0) * 2 ^ (- e))).
  { rewrite <- !Z.pow_add_r by lia. f_equal. lia. }
  assert (Hk : 0 < 2 ^ (e - e0)) by (apply Z.pow_pos_nonneg; lia).
  assert (HDpos : 0 < 2 ^ (- e)) by (apply Z.pow_pos_nonneg; lia).
  assert (Hhalf : 2 * Z.abs (3600000 * Zpos m - Zpos ms * 2 ^ (- e)) <= 3600000).
  { rewrite Hmx in Hbound. change (Zpos 7730941132800000) with (2 ^ 31 * 3600000) in Hbound.
    replace (Zpos ms * 2 ^ (53 - d) * 2 ^ 53)
      with (2 ^ 31 * 2 ^ (e - e0) * (Zpos ms * 2 ^ (- e))) in Hbound
      by (transitivity (Zpos ms * (2 ^ (53 - d) * 2 ^ 53)); [rewrite HD|]; ring).
    replace (2 ^ 31 * 3600000 * (Zpos m * 2 ^ (e - e0)) -
             2 ^ 31 * 2 ^ (e - e0) * (Zpos ms * 2 ^ (- e)))
      with (2 ^ 31 * 2 ^ (e - e0) * (3600000 * Zpos m - Zpos ms * 2 ^ (- e))) in Hbound by ring.
    rewrite Z.abs_mul, (Z.abs_eq (2 ^ 31 * 2 ^ (e - e0))) in Hbound by lia.
    apply (Z.mul_le_mono_pos_l _ _ (2 ^ 31 * 2 ^ (e - e0))); lia. }
  split_and!; try (done || lia).
  (* the exponent is at most -21: otherwise the quotient would exceed 2^32 *)
  destruct (Z.le_gt_cases e (-21)) as [|Hbig]; [done|]. exfalso.
  assert (He20 : e = -20) by lia. rewrite He20 in Hhalf. change (- -20) with 20 in Hhalf. lia.
Qed.

(** The same for a number of milliseconds that may be zero. *)
Lemma toFixed2_milliseconds ms :
  0 <= ms < 2 ^ 53 →
  ∃ n, toFixed2 (div (ofZ ms) (ofZ 3600000)) = Digits false n ∧
       Z.abs (36000 * n - ms) <= 18000.
Proof.
  intros [Hlo Hhi]. destruct ms as [|p|p]; [|clear Hlo|lia].
  { exists 0. split; [reflexivity | lia]. }
  destruct (div_milliseconds p Hhi) as (m & e & -> & Hm & He & Hbound).
  unfold toFixed2. rewrite (Z.max_r e 0), (Z.max_l (- e) 0), Z.pow_0_r, Z.mul_1_r by lia.
  set (D := 2 ^ (- e)) in *.
  assert (HD : 2 ^ 21 <= D) by (apply Z.pow_le_mono_r; lia).
  destruct (Z.leb_spec (10 ^ 21 * D) (Zpos m)) as [Hhuge|_]; [lia|].
  eexists. split; [reflexivity|].
  pose proof (Z.div_mod (200 * Zpos m + D) (2 * D) ltac:(lia)) as Hdm.
  pose proof (Z.mod_pos_bound (200 * Zpos m + D) (2 * D) ltac:(lia)) as Hmod.
  set (n := (200 * Zpos m + D) / (2 * D)) in *.
  set (r := (200 * Zpos m + D) mod (2 * D)) in *.
  assert (Hup : D * (36000 * n - Zpos p - 18000) <= 1800000) by lia.
  assert (Hdown : D * (Zpos p - 36000 * n - 18000) < 1800000) by lia.
  apply Z.abs_le. split.
  - destruct (Z.le_gt_cases (Zpos p - 36000 * n - 18000) 0); [lia|]. nia.
  - destruct (Z.le_gt_cases (36000 * n - Zpos p - 18000) 0); [lia|]. nia.
Qed.

End NumberFacts.

(* ===================================================================== *)
(** * Properties of the client-side time-entry state *)
(* ===================================================================== *)

Module TimeEntryContextFacts.
Import Number TimeEntryContext NumberFacts.

(** For time values since the epoch, the hours are the quotient of the
    elapsed milliseconds by 3600000, computed by one division. *)
Lemma elapsedHours_div clockOutTime clockInTime :
  0 <= clockInTime <= clockOutTime → clockOutTime < 2 ^ 53 →
  elapsedHours clockOutTime clockInTime =
  div (ofZ (clockOutTime - clockInTime)) (ofZ 3600000).
Proof.
  intros Hin Hout. unfold elapsedHours.
  by rewrite sub_ofZ, milliseconds_per_hour.
Qed.

(** The hours of the client are a number of hundredths nearest to the
    exact duration. *)
Lemma clientHours_nearest clockOutTime clockInTime :
  0 <= clockInTime <= clockOutTime → clockOutTime < 2 ^ 53 →
  ∃ n, clientHours clockOutTime clockInTime = Finite (Q2Qc (n # 100)) ∧
       Z.abs (36000 * n - (clockOutTime - clockInTime)) <= 18000.
Proof.
  intros Hin Hout. unfold clientHours. rewrite elapsedHours_div by done.
  destruct (toFixed2_milliseconds (clockOutTime - clockInTime)) as (n & -> & Hn); [lia|].
  by exists n.
Qed.

(** Away from the exact ties, the nearest number of hundredths is the one
    that decimal rounding gives. *)
Lemma nearest_hundredths ms n :
  Z.abs (36000 * n - ms) <= 18000 →
  ms mod 36000 ≠ 18000 →
  n = decimalHundredths ROUND_HALF_UP ms.
Proof.
  intros Hn Htie. unfold decimalHundredths.
  pose proof (Z.div_mod ms 36000 ltac:(lia)) as Hdm.
  pose proof (Z.mod_pos_bound ms 36000 ltac:(lia)) as Hr.
  destruct (Z.leb_spec 18000 (ms mod 36000)); lia.
Qed.

(** At an exact tie it is one of the two neighbours. *)
Lemma nearest_hundredths_tie ms n :
  Z.abs (36000 * n - ms) <= 18000 →
  ms mod 36000 = 18000 →
  n = ms / 36000 ∨ n = ms / 36000 + 1.
Proof.
  intros Hn Htie. pose proof (Z.div_mod ms 36000 ltac:(lia)) as Hdm. lia.
Qed.

(** ** The scenario of the specification *)

Example clockOut_eight_and_a_half_hours :
  clockOut "t1" (nineOClock + 30600000) clockedIn =
  {| currentEntry := None;
     recentEntries :=
       [ {| TimeEntry.id := "t1"; TimeEntry.userId := "a";
            TimeEntry.departmentId := "sales";
            TimeEntry.clockIn := nineOClock;
            TimeEntry.clockOut := Some (nineOClock + 30600000);
            TimeEntry.hours := Some (Finite (Q2Qc (850 # 100))) |} ];
     loading := false |}.
Proof. vm_compute. reflexivity. Qed.

(** The quotients that the division yields for 18 and for 54 seconds: the
    numbers nearest to 0.005 and to 0.015, the first a little above and the
    second a little below. *)
Example elapsedHours_18_seconds :
  elapsedHours (nineOClock + 18000) nineOClock =
  S754_finite false 5764607523034235 (-60).
Proof. vm_compute. reflexivity. Qed.

Example elapsedHours_54_seconds :
  elapsedHours (nineOClock + 54000) nineOClock =
  S754_finite false 8646911284551352 (-59).
Proof. vm_compute. reflexivity. Qed.

(** The claim of C4 as worded fails.  Clocking out 18 seconds and 54
    seconds after clocking in, exact ties between two hundredths of an hour
    (0.005 and 0.015 hours), both give 0.01 hours: the first tie is rounded
    up and the second down, which no rounding of the decimal value does. *)
Lemma clockOut_hours_not_decimal :
  TimeEntry.hours <$> recentEntries (clockOut "t1" (nineOClock + 18000) clockedIn) =
    [Some (Finite (Q2Qc (1 # 100)))] ∧
  TimeEntry.hours <$> recentEntries (clockOut "t1" (nineOClock + 54000) clockedIn) =
    [Some (Finite (Q2Qc (1 # 100)))] ∧
  decimalHours ROUND_HALF_UP 54000 = Finite (Q2Qc (2 # 100)) ∧
  ¬ ∃ mode, decimalHours mode 18000 = Finite (Q2Qc (1 # 100)) ∧
            decimalHours mode 54000 = Finite (Q2Qc (1 # 100)).
Proof.
  split_and!; try (vm_compute; reflexivity).
  intros (mode & H1 & H2).
  assert (Hn : ∀ a b, Finite (Q2Qc (a # 100)) = Finite (Q2Qc (b # 100)) →
                      Qred (a # 100) = Qred (b # 100)).
  { intros a b [= Heq]. exact Heq. }
  apply Hn in H1, H2. destruct mode; vm_compute in H1, H2; discriminate.
Qed.

(** C4, amended.  When a user with an open entry clocks out, at a time value
    not before the clock-in and both since the epoch, the entry that replaces
    the list item carries hours that are a whole number [n] of hundredths,
    nearest to the exact duration: [n / 100] differs from the duration by at
    most 0.005 hours (18000 ms).  Unless the duration is exactly halfway
    between two hundredths, [n] is the duration rounded to two decimal
    places in decimal arithmetic; 09:00:00 to 17:30:00 gives 8.50. *)
Theorem clockOut_hours_nearest_hundredth st current timeEntryId now :
  currentEntry st = Some current →
  0 <= TimeEntry.clockIn current <= now → now <= 8640000000000000 →
  let ms := now - TimeEntry.clockIn current in
  ∃ n,
    clockOut timeEntryId now st =
      {| currentEntry := None;
         recentEntries :=
           (fun entry =>
              if decide (TimeEntry.id entry = timeEntryId)
              then {| TimeEntry.id := TimeEntry.id current;
                      TimeEntry.userId := TimeEntry.userId current;
                      TimeEntry.departmentId := TimeEntry.departmentId current;
                      TimeEntry.clockIn := TimeEntry.clockIn current;
                      TimeEntry.clockOut := Some now;
                      TimeEntry.hours := Some (Finite (Q2Qc (n # 100))) |}
              else entry) <$> recentEntries st;
         loading := false |} ∧
    Z.abs (36000 * n - ms) <= 18000 ∧
    (ms mod 36000 ≠ 18000 → n = decimalHundredths ROUND_HALF_UP ms) ∧
    (ms = 30600000 → n = 850).
Proof.
  intros Hcur Hin Hnow ms.
  destruct (clientHours_nearest now (TimeEntry.clockIn current)) as (n & Hhours & Hn);
    [done | lia |].
  exists n. split_and!.
  - unfold clockOut. rewrite Hcur. unfold clientHours in Hhours. by rewrite Hhours.
  - done.
  - by apply nearest_hundredths.
  - intros Hms. fold ms in Hn. lia.
Qed.

Lemma clockOut_hours_nearest_hundredth_witness :
  ∃ n,
    clockOut "t1" (nineOClock + 30600000) clockedIn =
      {| currentEntry := None;
         recentEntries :=
           (fun entry =>
              if decide (TimeEntry.id entry = "t1")
              then {| TimeEntry.id := "t1"; TimeEntry.userId := "a";
                      TimeEntry.departmentId := "sales";
                      TimeEntry.clockIn := nineOClock;
                      TimeEntry.clockOut := Some (nineOClock + 30600000);
                      TimeEntry.hours := Some (Finite (Q2Qc (n # 100))) |}
              else entry) <$> [openEntry];
         loading := false |} ∧
    Z.abs (36000 * n - 30600000) <= 18000 ∧
    (30600000 mod 36000 ≠ 18000 → n = decimalHundredths ROUND_HALF_UP 30600000) ∧
    (30600000 = 30600000 → n = 850).
Proof.
  apply (clockOut_hours_nearest_hundredth clockedIn openEntry "t1" (nineOClock + 30600000)).
  - reflexivity.
  - vm_compute. split; discriminate.
  - vm_compute. discriminate.
Defined.

(** C10. While the user is clocked out ([currentEntry] is null), the client
    [clockOut] changes neither [currentEntry] nor [recentEntries], whatever
    entry id it is given. *)
Theorem clockOut_without_open_entry st timeEntryId now :
  currentEntry st = None →
  currentEntry (clockOut timeEntryId now st) = currentEntry st ∧
  recentEntries (clockOut timeEntryId now st) = recentEntries st.
Proof. intros Hnone. unfold clockOut. by rewrite Hnone. Qed.

Lemma clockOut_without_open_entry_witness :
  currentEntry (clockOut "t1" nineOClock (mkState None [openEntry] false)) = None ∧
  recentEntries (clockOut "t1" nineOClock (mkState None [openEntry] false)) = [openEntry].
Proof.
  apply (clockOut_without_open_entry (mkState None [openEntry] false) "t1" nineOClock).
  reflexivity.
Defined.

End TimeEntryContextFacts.

(* ===================================================================== *)
(** * More properties of the department service *)
(* ===================================================================== *)

Module DepartmentServiceMore.
Import DepartmentService DepartmentServiceFacts.

(** ** Rollups of the other departments *)

Lemma filter_insert_other (m : gmap (string * string) EmployeeDepartment)
    userId departmentId other data :
  other ≠ departmentId →
  filter (inDepartment other) (<[(userId, departmentId) := data]> m) =
  filter (inDepartment other) m.
Proof.
  intros Hne. apply map_filter_insert_not'; unfold inDepartment; simpl; congruence.
Qed.

Lemma filter_delete_other (m : gmap (string * string) EmployeeDepartment)
    userId departmentId other :
  other ≠ departmentId →
  filter (inDepartment other) (delete (userId, departmentId) m) =
  filter (inDepartment other) m.
Proof.
  intros Hne. apply map_filter_delete_not. unfold inDepartment; simpl; congruence.
Qed.

(** The rollups of a department depend on the membership table only. *)
Lemma count_ext db db' departmentId :
  filter (inDepartment departmentId) (employeeDepartments db') =
  filter (inDepartment departmentId) (employeeDepartments db) →
  getTotalEmployeeCount departmentId db' = getTotalEmployeeCount departmentId db ∧
  employeeCostDecimal departmentId db' = employeeCostDecimal departmentId db.
Proof.
  intros Heq.
  unfold getTotalEmployeeCount, employeeDepartment_count, employeeCostDecimal,
    employeeDepartment_findMany. by rewrite Heq.
Qed.

Lemma is_Some_insert_mono {K V} `{Countable K} (m : gmap K V) i j x :
  is_Some (m !! j) → is_Some (<[i := x]> m !! j).
Proof.
  intros Hj. destruct (decide (i = j)) as [->|Hne].
  - rewrite lookup_insert_eq. by eexists.
  - by rewrite lookup_insert_ne.
Qed.

Section MoreFacts.
Variable toNumber : Decimal → Number.number.
Variable newDecimal : Number.number → Decimal.

Lemma notAdminNorManager_true user membership :
  user_role user ≠ UserRole.ADMIN →
  role <$> membership ≠ Some EmployeeDepartmentRole.MANAGER →
  notAdminNorManager user membership = true.
Proof.
  intros H1 H2. unfold notAdminNorManager.
  apply andb_true_iff; split; by apply bool_decide_eq_true.
Qed.

(** X1. An actor who is neither a global administrator nor the [MANAGER]
    of the department (a plain member, the holder of the department role
    [ADMIN], a non-member or an unknown user) cannot rename the department,
    change a role in it or add an employee to it: the three calls return
    [null] after the permission message and leave the datastore as it was. *)
Theorem member_management_denied db userId departmentId :
  user_role <$> users db !! userId ≠ Some UserRole.ADMIN →
  role <$> employeeDepartments db !! (userId, departmentId) ≠
    Some EmployeeDepartmentRole.MANAGER →
  (∀ name, updateDepartment userId departmentId name db = (Null PermissionDenied, db)) ∧
  (∀ employeeId role,
     updateEmployeeRole userId departmentId employeeId role db =
     (Null PermissionDenied, db)) ∧
  (∀ employeeId role rate position,
     addEmployeeToDepartment toNumber newDecimal
       userId departmentId employeeId role rate position db =
     (Null PermissionDenied, db)).
Proof.
  intros Hadmin Hmanager.
  unfold updateDepartment, updateEmployeeRole, addEmployeeToDepartment,
    user_findUnique, employeeDepartment_find.
  destruct (users db !! userId) as [user|]; [|done].
  rewrite notAdminNorManager_true; [done | | done].
  simpl in Hadmin. congruence.
Qed.

(** X2. For a global administrator or the manager of an existing
    department, [updateDepartment] returns the department with the new name
    and the same id and info; reading the department back gives that record,
    every other department, the users and the memberships are untouched,
    renaming to the current name changes nothing, and of two renamings in a
    row the second decides the stored state. *)
Theorem updateDepartment_renames db userId id name user department :
  users db !! userId = Some user →
  user_role user = UserRole.ADMIN ∨
    role <$> employeeDepartments db !! (userId, id) = Some EmployeeDepartmentRole.MANAGER →
  departments db !! id = Some department →
  let renamed := mkDepartment (DepartmentService.id department) name (info department) in
  ∃ db',
    updateDepartment userId id name db = (Returned renamed, db') ∧
    getDepartmentById id db' = Some renamed ∧
    (∀ other, other ≠ id → getDepartmentById other db' = getDepartmentById other db) ∧
    users db' = users db ∧ employeeDepartments db' = employeeDepartments db ∧
    (DepartmentService.name department = name → db' = db) ∧
    (∀ name2, (updateDepartment userId id name2 db').2 =
              (updateDepartment userId id name2 db).2).
Proof.
  intros Huser Hperm Hdept renamed.
  assert (Hupd : ∀ n, updateDepartment userId id n db =
    (Returned (mkDepartment (DepartmentService.id department) n (info department)),
     {| users := users db;
        departments := <[id := mkDepartment (DepartmentService.id department) n (info department)]>
                         (departments db);
        employeeDepartments := employeeDepartments db |})).
  { intros n. unfold updateDepartment, user_findUnique, employeeDepartment_find, department_update.
    rewrite Huser, (notAdminNorManager_false _ _ Hperm), Hdept. by destruct department. }
  eexists. split; [apply Hupd|]. split_and!.
  - unfold getDepartmentById, department_findUnique. simpl. apply lookup_insert_eq.
  - intros other Hne. unfold getDepartmentById, department_findUnique. simpl.
    by rewrite lookup_insert_ne.
  - done.
  - done.
  - intros <-. destruct db as [us ds ms]; simpl in *. f_equal.
    apply insert_id. rewrite Hdept. by destruct department.
  - intros name2. rewrite Hupd.
    unfold updateDepartment, user_findUnique, employeeDepartment_find, department_update.
    simpl. rewrite Huser, (notAdminNorManager_false _ _ Hperm), lookup_insert_eq. simpl.
    by rewrite insert_insert_eq.
Qed.

(** X3. For a permitted actor, [updateEmployeeRole] on an existing
    membership replaces the role and keeps rate and position, so that the
    member count and the cost of every department stay what they were; on a
    pair without a membership the update throws, and the call returns [null]
    with the datastore unchanged (it never creates a membership). *)
Theorem updateEmployeeRole_role_only db userId departmentId employeeId role user :
  users db !! userId = Some user →
  user_role user = UserRole.ADMIN ∨
    DepartmentService.role <$> employeeDepartments db !! (userId, departmentId) =
      Some EmployeeDepartmentRole.MANAGER →
  match employeeDepartments db !! (employeeId, departmentId) with
  | Some old =>
      let employee := mkEmployeeDepartment role (hourlyRate old) (position old) in
      ∃ db',
        updateEmployeeRole userId departmentId employeeId role db = (Returned employee, db') ∧
        employeeDepartments db' =
          <[(employeeId, departmentId) := employee]> (employeeDepartments db) ∧
        users db' = users db ∧ departments db' = departments db ∧
        ∀ other,
          getTotalEmployeeCount other db' = getTotalEmployeeCount other db ∧
          getEmployeeCost toNumber other db' = getEmployeeCost toNumber other db
  | None =>
      updateEmployeeRole userId departmentId employeeId role db = (Null StorageError, db)
  end.
Proof.
  intros Huser Hperm.
  unfold updateEmployeeRole, user_findUnique, employeeDepartment_find,
    employeeDepartment_updateRole.
  rewrite Huser, (notAdminNorManager_false _ _ Hperm).
  destruct (employeeDepartments db !! (employeeId, departmentId)) as [old|] eqn:Hold; [|done].
  destruct old as [oldRole rate pos]. simpl.
  eexists. split; [reflexivity|]. split_and!; try done.
  intros other. destruct (decide (other = departmentId)) as [->|Hne].
  - split.
    + by apply (count_insert_existing db employeeId departmentId _ _ Hold).
    + unfold getEmployeeCost. f_equal.
      rewrite (cost_insert_existing db employeeId departmentId _ _ Hold). simpl.
      generalize (employeeCostDecimal departmentId db) rate. clear.
      intros total r. unfold Decimal in *. ring.
  - destruct (count_ext db
      {| users := users db; departments := departments db;
         employeeDepartments :=
           <[(employeeId, departmentId) := mkEmployeeDepartment role rate pos]>
             (employeeDepartments db) |} other) as [Hc Hs].
    + simpl. by apply filter_insert_other.
    + split; [done|]. unfold getEmployeeCost. by rewrite Hs.
Qed.

(** X4. A successful [removeEmployeeFromDepartment] deletes exactly the
    row of [(employeeId, departmentId)]: users and departments are
    untouched, the department has one member less, its decimal total is
    lower by the rate of the removed member, and the rollups of every other
    department are unchanged. *)
Theorem removeEmployee_rollups db userId departmentId employeeId user old department :
  users db !! userId = Some user →
  hasPermission user (employeeDepartments db !! (userId, departmentId)) = true →
  employeeDepartments db !! (employeeId, departmentId) = Some old →
  departments db !! departmentId = Some department →
  ∃ view db',
    removeEmployeeFromDepartment toNumber userId departmentId employeeId db =
      (Returned view, db') ∧
    employeeDepartments db' = delete (employeeId, departmentId) (employeeDepartments db) ∧
    users db' = users db ∧ departments db' = departments db ∧
    S (getTotalEmployeeCount departmentId db') = getTotalEmployeeCount departmentId db ∧
    employeeCostDecimal departmentId db' =
      (employeeCostDecimal departmentId db - hourlyRate old)%Qc ∧
    ∀ other, other ≠ departmentId →
      getTotalEmployeeCount other db' = getTotalEmployeeCount other db ∧
      getEmployeeCost toNumber other db' = getEmployeeCost toNumber other db.
Proof.
  intros Huser Hperm Hold Hdept. eexists _, _. split.
  { by apply removeEmployeeFromDepartment_permitted with (user := user) (old := old). }
  split_and!; try done.
  - by apply (count_delete db employeeId departmentId old).
  - by apply (cost_delete db employeeId departmentId old).
  - intros other Hne.
    destruct (count_ext db
      {| users := users db; departments := departments db;
         employeeDepartments := delete (employeeId, departmentId) (employeeDepartments db) |}
      other) as [Hc Hs].
    + simpl. by apply filter_delete_other.
    + split; [done|]. unfold getEmployeeCost. by rewrite Hs.
Qed.

(** ** Referential integrity *)

Lemma consistent_memberships (users1 : gmap string User)
    (departments1 : gmap string Department)
    (m m' : gmap (string * string) EmployeeDepartment) :
  consistent (mkStore users1 departments1 m) →
  (∀ key row, m' !! key = Some row →
     is_Some (m !! key) ∨ (is_Some (users1 !! key.1) ∧ is_Some (departments1 !! key.2))) →
  consistent (mkStore users1 departments1 m').
Proof.
  unfold consistent. simpl. intros Hm Hsub key row Hkey.
  destruct (Hsub key row Hkey) as [[old Hold] | Hnew]; [|done].
  by apply (Hm key old).
Qed.

Lemma consistent_insert db userId departmentId data :
  consistent db →
  is_Some (users db !! userId) → is_Some (departments db !! departmentId) →
  consistent {| users := users db; departments := departments db;
                employeeDepartments :=
                  <[(userId, departmentId) := data]> (employeeDepartments db) |}.
Proof.
  intros Hdb Hu Hd. destruct db as [us ds ms]. simpl in *.
  apply (consistent_memberships us ds ms); [done|].
  intros key row Hkey. destruct (decide (key = (userId, departmentId))) as [->|Hne].
  - by right.
  - left. rewrite lookup_insert_ne in Hkey by done. by eexists.
Qed.

Lemma consistent_delete db userId departmentId :
  consistent db →
  consistent {| users := users db; departments := departments db;
                employeeDepartments := delete (userId, departmentId) (employeeDepartments db) |}.
Proof.
  intros Hdb. destruct db as [us ds ms]. simpl in *.
  apply (consistent_memberships us ds ms); [done|].
  intros key row Hkey. left. apply lookup_delete_Some in Hkey as [_ Hkey]. by eexists.
Qed.

Lemma consistent_departments_insert db key department :
  consistent db →
  consistent {| users := users db;
                departments := <[key := department]> (departments db);
                employeeDepartments := employeeDepartments db |}.
Proof.
  unfold consistent. simpl. intros Hdb k row Hk.
  destruct (Hdb k row Hk) as [Hu Hd]. split; [done|]. by apply is_Some_insert_mono.
Qed.

Lemma keyed_insert db key department :
  keyed db → DepartmentService.id department = key →
  map_Forall (fun key department => DepartmentService.id department = key)
    (<[key := department]> (departments db)).
Proof. intros Hdb Hid. by apply map_Forall_insert_2. Qed.

Lemma consistent_row db userId departmentId row :
  consistent db →
  employeeDepartments db !! (userId, departmentId) = Some row →
  is_Some (users db !! userId) ∧ is_Some (departments db !! departmentId).
Proof. intros Hdb Hrow. apply (Hdb (userId, departmentId) row Hrow). Qed.

(** X5. On a datastore whose memberships refer to existing users and
    departments, a call of the service that returns [null], for whatever
    reason, has written nothing: the datastore after the call is the
    datastore before it. *)
Theorem failed_calls_write_nothing db why db' :
  consistent db →
  (∀ userId name info,
     createDepartment userId name info db = (Null why, db') → db' = db) ∧
  (∀ userId id, deleteDepartment userId id db = (Null why, db') → db' = db) ∧
  (∀ userId id name, updateDepartment userId id name db = (Null why, db') → db' = db) ∧
  (∀ userId departmentId employeeId role,
     updateEmployeeRole userId departmentId employeeId role db = (Null why, db') →
     db' = db) ∧
  (∀ userId departmentId employeeId role rate position,
     addEmployeeToDepartment toNumber newDecimal
       userId departmentId employeeId role rate position db = (Null why, db') →
     db' = db) ∧
  (∀ userId departmentId employeeId,
     removeEmployeeFromDepartment toNumber userId departmentId employeeId db =
       (Null why, db') → db' = db).
Proof.
  intros Hdb. split_and!.
  - intros userId name info. unfold createDepartment, department_create.
    intros H. repeat case_match; simplify_eq; done.
  - intros userId id. unfold deleteDepartment.
    intros H. repeat case_match; simplify_eq; done.
  - intros userId id name. unfold updateDepartment.
    intros H. repeat case_match; simplify_eq; done.
  - intros userId departmentId employeeId role. unfold updateEmployeeRole.
    intros H. repeat case_match; simplify_eq; done.
  - intros userId departmentId employeeId role rate position.
    unfold addEmployeeToDepartment. intros H. repeat case_match; simplify_eq; done.
  - intros userId departmentId employeeId.
    unfold removeEmployeeFromDepartment, transaction, removeEmployeeCallback,
      employeeDepartment_find, employeeDepartment_delete, department_findUnique. simpl.
    destruct (user_findUnique userId db) as [user|]; [|by intros [= _ <-]].
    destruct (negb _); [by intros [= _ <-]|].
    destruct (employeeDepartments db !! (employeeId, departmentId)) as [row|] eqn:Hrow;
      [|by intros [= _ <-]].
    simpl. destruct (consistent_row db _ _ _ Hdb Hrow) as [_ [department Hdept]].
    rewrite Hdept. intros [=].
Qed.

(** X6. The calls of the service that create or rename a department or
    write a membership keep the datastore well formed: afterwards every
    membership still refers to an existing user and an existing department,
    and every department is stored under its own id, whether the call
    succeeds or not. *)
Theorem operations_keep_integrity db :
  consistent db → keyed db →
  (∀ userId name info,
     let db' := (createDepartment userId name info db).2 in consistent db' ∧ keyed db') ∧
  (∀ userId id name,
     let db' := (updateDepartment userId id name db).2 in consistent db' ∧ keyed db') ∧
  (∀ userId departmentId employeeId role,
     let db' := (updateEmployeeRole userId departmentId employeeId role db).2 in
     consistent db' ∧ keyed db') ∧
  (∀ userId departmentId employeeId role rate position,
     let db' := (addEmployeeToDepartment toNumber newDecimal
                   userId departmentId employeeId role rate position db).2 in
     consistent db' ∧ keyed db') ∧
  (∀ userId departmentId employeeId,
     let db' := (removeEmployeeFromDepartment toNumber userId departmentId employeeId db).2 in
     consistent db' ∧ keyed db').
Proof.
  intros Hc Hk. split_and!.
  - intros userId name info. unfold createDepartment, department_create.
    repeat case_match; simpl; try done.
    split; [by apply consistent_departments_insert | by apply keyed_insert].
  - intros userId id name. unfold updateDepartment, department_update.
    repeat case_match; simplify_eq; simpl; try done.
    split; [by apply consistent_departments_insert|].
    apply keyed_insert; [done|]. simpl.
    match goal with H : departments db !! _ = Some _ |- _ => apply (Hk _ _ H) end.
  - intros userId departmentId employeeId role.
    unfold updateEmployeeRole, employeeDepartment_updateRole.
    repeat case_match; simplify_eq; simpl; try done.
    split; [|done].
    match goal with H : employeeDepartments db !! _ = Some _ |- _ =>
      destruct (consistent_row db _ _ _ Hc H) end.
    by apply consistent_insert.
  - intros userId departmentId employeeId role rate position.
    unfold addEmployeeToDepartment, employeeDepartment_find, employeeDepartment_update,
      employeeDepartment_create.
    repeat case_match; simplify_eq; simpl; try done.
    + split; [|done].
      match goal with H : employeeDepartments db !! _ = Some _ |- _ =>
        destruct (consistent_row db _ _ _ Hc H) end.
      by apply consistent_insert.
    + split; [|done]. by apply consistent_insert.
  - intros userId departmentId employeeId.
    unfold removeEmployeeFromDepartment, transaction, removeEmployeeCallback,
      employeeDepartment_find, employeeDepartment_delete, department_findUnique.
    repeat case_match; simplify_eq; simpl in *; try done;
      (split; [by apply consistent_delete | done]).
Qed.

(** ** Listing departments *)

Lemma elem_of_values_filter {K V} `{Countable K} (P : K * V → Prop)
    `{∀ x, Decision (P x)} (m : gmap K V) (v : V) :
  v ∈ (map_to_list (filter P m)).*2 ↔ ∃ k, m !! k = Some v ∧ P (k, v).
Proof.
  rewrite list_elem_of_fmap. split.
  - intros ([k v'] & -> & Hin). apply elem_of_map_to_list in Hin.
    apply map_lookup_filter_Some in Hin as [Hk HP]. by exists k.
  - intros (k & Hk & HP). exists (k, v). split; [done|].
    apply elem_of_map_to_list. by apply map_lookup_filter_Some.
Qed.

Lemma elem_of_values {K V} `{Countable K} (m : gmap K V) (v : V) :
  v ∈ (map_to_list m).*2 ↔ ∃ k, m !! k = Some v.
Proof.
  rewrite list_elem_of_fmap. split.
  - intros ([k v'] & -> & Hin). apply elem_of_map_to_list in Hin. by exists k.
  - intros (k & Hk). exists (k, v). split; [done|]. by apply elem_of_map_to_list.
Qed.

Lemma elem_of_departmentIds (userId : string)
    (m : gmap (string * string) EmployeeDepartment) (key : string) :
  key ∈ departmentIds (map_to_list (filter (managedBy userId) m)) ↔
  ∃ row, m !! (userId, key) = Some row ∧
         (role row = EmployeeDepartmentRole.MANAGER ∨ role row = EmployeeDepartmentRole.ADMIN).
Proof.
  unfold departmentIds. rewrite list_elem_of_fmap. split.
  - intros ([[u k] row] & -> & Hin). apply elem_of_map_to_list in Hin.
    apply map_lookup_filter_Some in Hin as [Hk [Hu Hrole]]. simpl in *. subst u.
    by exists row.
  - intros (row & Hk & Hrole). exists ((userId, key), row). split; [done|].
    apply elem_of_map_to_list. by apply map_lookup_filter_Some.
Qed.

Lemma NoDup_values_keyed db (P : string * Department → Prop) `{∀ x, Decision (P x)} :
  keyed db → NoDup (map_to_list (filter P (departments db))).*2.
Proof.
  intros Hk. apply NoDup_fmap_2_strong; [|apply NoDup_map_to_list].
  intros [k1 d1] [k2 d2] H1 H2 Heq. simpl in Heq. subst d2.
  apply elem_of_map_to_list, map_lookup_filter_Some in H1 as [H1 _].
  apply elem_of_map_to_list, map_lookup_filter_Some in H2 as [H2 _].
  by rewrite <- (Hk _ _ H1), <- (Hk _ _ H2).
Qed.

(** X7. [getUserPermittedDepartmentsInfo] lists a department exactly when
    it is stored and either the session role is [ADMIN] or the user holds the
    role [MANAGER] or [ADMIN] in it; no department is listed twice; and
    [getUserPermittedDepartments] lists the same departments in the same
    order, with rollups attached. *)
Theorem permitted_departments_listed currentRole userId db department :
  keyed db →
  (department ∈ getUserPermittedDepartmentsInfo currentRole userId db ↔
   departments db !! id department = Some department ∧
   (currentRole = Some UserRole.ADMIN ∨
    ∃ row, employeeDepartments db !! (userId, id department) = Some row ∧
           (role row = EmployeeDepartmentRole.MANAGER ∨
            role row = EmployeeDepartmentRole.ADMIN))) ∧
  NoDup (getUserPermittedDepartmentsInfo currentRole userId db) ∧
  DepartmentService.department <$>
    getUserPermittedDepartments toNumber currentRole userId db =
  getUserPermittedDepartmentsInfo currentRole userId db.
Proof.
  intros Hk. unfold getUserPermittedDepartmentsInfo, getUserPermittedDepartments,
    getAllDepartments, department_findManyIn, department_findMany, withRollups.
  split_and!.
  - case_decide as Hrole.
    + rewrite elem_of_values. split.
      * intros (k & Hdept). rewrite (Hk _ _ Hdept). auto.
      * intros (Hdept & _). by eexists.
    + rewrite elem_of_values_filter. split.
      * intros (k & Hdept & Hin). simpl in Hin. rewrite (Hk _ _ Hdept).
        split; [done|]. right. by apply elem_of_departmentIds.
      * intros (Hdept & [Hadmin | Hrow]); [done|].
        exists (id department). split; [done|]. simpl. by apply elem_of_departmentIds.
  - case_decide.
    + rewrite <- (map_filter_id (fun _ => True) (departments db)) by done.
      by apply NoDup_values_keyed.
    + by apply NoDup_values_keyed.
  - case_decide; rewrite <- list_fmap_compose; apply list_fmap_id.
Qed.

Lemma elem_of_memberIds (userId : string)
    (m : gmap (string * string) EmployeeDepartment) (key : string) :
  key ∈ departmentIds (map_to_list (filter (memberOf userId) m)) ↔
  is_Some (m !! (userId, key)).
Proof.
  unfold departmentIds. rewrite list_elem_of_fmap. split.
  - intros ([[u k] row] & -> & Hin). apply elem_of_map_to_list in Hin.
    apply map_lookup_filter_Some in Hin as [Hk Hu]. unfold memberOf in Hu.
    simpl in *. subst u. by exists row.
  - intros (row & Hk). exists ((userId, key), row). split; [done|].
    apply elem_of_map_to_list. by apply map_lookup_filter_Some.
Qed.

(** X8. [getEmployessByDepartmentIds] returns exactly the stored
    departments in which the user has a membership of any role (all of them
    when the session role is [ADMIN]), each with the member count and cost
    that the rollup functions compute on the datastore. *)
Theorem member_departments_listed currentRole userId db view :
  keyed db →
  view ∈ getEmployessByDepartmentIds toNumber currentRole userId db ↔
  departments db !! id (department view) = Some (department view) ∧
  employeeCount view = getTotalEmployeeCount (id (department view)) db ∧
  totalCost view = getEmployeeCost toNumber (id (department view)) db ∧
  (currentRole = Some UserRole.ADMIN ∨
   is_Some (employeeDepartments db !! (userId, id (department view)))).
Proof.
  intros Hk. unfold getEmployessByDepartmentIds, getAllDepartments, withRollups,
    department_findManyIn, department_findMany.
  case_decide as Hrole; rewrite list_elem_of_fmap.
  - split.
    + intros (dept & -> & Hin). apply elem_of_values in Hin as (k & Hdept). simpl.
      rewrite (Hk _ _ Hdept). auto.
    + intros (Hdept & Hcount & Hcost & _). exists (department view). split.
      * destruct view; simpl in *. by subst.
      * apply elem_of_values. by eexists.
  - split.
    + intros (dept & -> & Hin). apply elem_of_values_filter in Hin as (k & Hdept & Hin).
      simpl in *. rewrite (Hk _ _ Hdept). split_and!; try done.
      right. by apply elem_of_memberIds.
    + intros (Hdept & Hcount & Hcost & [Hadmin | Hrow]); [done|].
      exists (department view). split.
      * destruct view; simpl in *. by subst.
      * apply elem_of_values_filter. exists (id (department view)). split; [done|].
        simpl. by apply elem_of_memberIds.
Qed.

(** ** Every membership is counted once *)

Lemma sum_list_bump (f : string → nat) (key : string) (keys : list string) :
  NoDup keys → key ∈ keys →
  sum_list ((fun k => if decide (k = key) then S (f k) else f k) <$> keys) =
  S (sum_list (f <$> keys)).
Proof.
  induction 1 as [|k keys Hk Hnd IH]; intros Hin; [inversion Hin|].
  rewrite !fmap_cons. apply elem_of_cons in Hin as [<- | Hin].
  - assert (Heq : (fun k => if decide (k = key) then S (f k) else f k) <$> keys = f <$> keys).
    { apply list_fmap_ext. intros i k' Hk'. rewrite decide_False; [done|].
      intros ->. apply Hk. by eapply list_elem_of_lookup_2. }
    rewrite Heq, decide_True by done. simpl. lia.
  - rewrite decide_False by (intros ->; done). simpl. rewrite IH by done. lia.
Qed.

Lemma sum_counts (keys : list string) (m : gmap (string * string) EmployeeDepartment) :
  NoDup keys →
  map_Forall (fun (key : string * string) (_ : EmployeeDepartment) => key.2 ∈ keys) m →
  sum_list ((fun k => size (filter (inDepartment k) m)) <$> keys) = size m.
Proof.
  intros Hnd. induction m as [|[u d] row m Hnew _ IH] using map_first_key_ind.
  - intros _. rewrite map_size_empty. induction keys as [|k keys IHk]; [done|].
    simpl. rewrite map_filter_empty, map_size_empty. apply IHk. by apply NoDup_cons in Hnd as [_ ?].
  - intros [Hd Hm]%map_Forall_insert; [|done]. simpl in Hd.
    rewrite map_size_insert_None by done. rewrite <- (IH Hm).
    rewrite <- (sum_list_bump _ d keys Hnd Hd). f_equal.
    apply list_fmap_ext. intros i k Hk. case_decide as Hkd.
    + subst k. rewrite map_filter_insert_True by done.
      apply map_size_insert_None. by apply map_lookup_filter_None_2; left.
    + by rewrite filter_insert_other.
Qed.

(** X9. In the list of [getAllDepartments] every membership is counted
    once: the employee counts of the views add up to the number of rows of
    the membership table, and there is one view per stored department. *)
Theorem getAllDepartments_counts db :
  consistent db → keyed db →
  sum_list (employeeCount <$> getAllDepartments toNumber db) =
    size (employeeDepartments db) ∧
  length (getAllDepartments toNumber db) = size (departments db).
Proof.
  intros Hc Hk. unfold getAllDepartments, withRollups, department_findMany. split.
  - rewrite <- !list_fmap_compose.
    rewrite <- (sum_counts (map_to_list (departments db)).*1 (employeeDepartments db)).
    + f_equal. rewrite <- list_fmap_compose. apply list_fmap_ext.
      intros i [k d] Hin. simpl. unfold getTotalEmployeeCount, employeeDepartment_count.
      apply list_elem_of_lookup_2, elem_of_map_to_list in Hin. by rewrite (Hk _ _ Hin).
    + apply NoDup_fst_map_to_list.
    + intros [u d] row Hrow. simpl. destruct (Hc _ _ Hrow) as [_ [dept Hdept]]. simpl in Hdept.
      apply list_elem_of_fmap. exists (d, dept). split; [done|]. by apply elem_of_map_to_list.
  - by rewrite !length_fmap, length_map_to_list.
Qed.

(** ** Repeating an upsert *)

(** X10. Repeating an [addEmployeeToDepartment] is harmless: for a global
    administrator, or a manager who adds somebody else, the second identical
    call returns the same view as the first and leaves the datastore as the
    first call left it. *)
Theorem addEmployeeToDepartment_idempotent db userId departmentId employeeId
    role rate position user department :
  users db !! userId = Some user →
  user_role user = UserRole.ADMIN ∨
    (userId ≠ employeeId ∧
     DepartmentService.role <$> employeeDepartments db !! (userId, departmentId) =
       Some EmployeeDepartmentRole.MANAGER) →
  departments db !! departmentId = Some department →
  is_Some (users db !! employeeId) →
  ∃ view db1,
    addEmployeeToDepartment toNumber newDecimal
      userId departmentId employeeId role rate position db = (Returned view, db1) ∧
    addEmployeeToDepartment toNumber newDecimal
      userId departmentId employeeId role rate position db1 = (Returned view, db1).
Proof.
  intros Huser Hperm Hdept Hemp. eexists _, _. split.
  - apply addEmployeeToDepartment_permitted with (user := user); try done.
    destruct Hperm as [?|[_ ?]]; auto.
  - rewrite (addEmployeeToDepartment_permitted toNumber newDecimal _ userId departmentId
               employeeId role rate position user department); simpl; try done.
    + by rewrite insert_insert_eq.
    + destruct Hperm as [?|[Hne Hm]]; [by left|]. right.
      rewrite lookup_insert_ne; [done|]. congruence.
Qed.

(** X11. The upsert does not protect the actor's own membership: a manager
    who is not a global administrator and calls [addEmployeeToDepartment]
    with their own id and a role other than [MANAGER] succeeds, holds the new
    role afterwards, and has lost the permission: the same call, and
    [updateDepartment], are then denied. *)
Theorem manager_can_demote_self db userId departmentId role rate position
    user old department :
  users db !! userId = Some user →
  user_role user ≠ UserRole.ADMIN →
  employeeDepartments db !! (userId, departmentId) = Some old →
  DepartmentService.role old = EmployeeDepartmentRole.MANAGER →
  role ≠ EmployeeDepartmentRole.MANAGER →
  departments db !! departmentId = Some department →
  ∃ view db1,
    addEmployeeToDepartment toNumber newDecimal
      userId departmentId userId role rate position db = (Returned view, db1) ∧
    employeeDepartments db1 !! (userId, departmentId) =
      Some (mkEmployeeDepartment role (newDecimal rate) position) ∧
    addEmployeeToDepartment toNumber newDecimal
      userId departmentId userId role rate position db1 = (Null PermissionDenied, db1) ∧
    ∀ name, updateDepartment userId departmentId name db1 = (Null PermissionDenied, db1).
Proof.
  intros Huser Hadmin Hold Hmanager Hrole Hdept. eexists _, _. split.
  { apply addEmployeeToDepartment_permitted with (user := user);
      [done | | done | by eexists].
    right. rewrite Hold. simpl. by rewrite Hmanager. }
  split; [simpl; apply lookup_insert_eq|].
  unfold addEmployeeToDepartment, updateDepartment, user_findUnique, employeeDepartment_find.
  simpl. rewrite Huser, lookup_insert_eq.
  rewrite notAdminNorManager_true; [done|done|]. simpl. congruence.
Qed.

(** ** Creating and deleting a department *)

Lemma no_member_of_fresh db :
  consistent db →
  ∀ key row, employeeDepartments db !! key = Some row →
             ¬ inDepartment (fresh (dom (departments db))) (key, row).
Proof.
  intros Hc [u d] row Hrow Hin. unfold inDepartment in Hin. simpl in Hin. subst d.
  destruct (Hc _ _ Hrow) as [_ Hdept]. simpl in Hdept.
  apply elem_of_dom in Hdept. by apply is_fresh in Hdept.
Qed.

(** X12. When an administrator creates a department on a well-formed
    datastore, the new department gets an id that was not in use, can be read
    back under that id, and every department that existed is still there; the
    list of departments is the old list with the new department added, and
    the count 0 and the cost 0 of the returned view are what the rollup
    queries give on the new datastore. *)
Theorem createDepartment_adds_one db userId name info :
  user_role <$> users db !! userId = Some UserRole.ADMIN →
  consistent db →
  ∃ view db',
    createDepartment userId name info db = (Returned view, db') ∧
    getDepartmentById (id (department view)) db = None ∧
    getDepartmentById (id (department view)) db' = Some (department view) ∧
    (∀ other found, getDepartmentById other db = Some found →
                    getDepartmentById other db' = Some found) ∧
    getAllDepartmentsInfo db' ≡ₚ department view :: getAllDepartmentsInfo db ∧
    employeeCount view = getTotalEmployeeCount (id (department view)) db' ∧
    employeeCostDecimal (id (department view)) db' = Q2Qc 0.
Proof.
  intros Hrole Hc. destruct (createDepartment_admin db userId name info Hrole)
    as (view & Hcreate & Hfresh & Hname & Hinfo).
  exists view. eexists. split; [exact Hcreate|].
  assert (Hview : employeeCount view = 0%nat ∧
                  id (department view) = fresh (dom (departments db))).
  { revert Hcreate. unfold createDepartment, department_create.
    repeat case_match; intros [= <- _]; done. }
  destruct Hview as [Hcount Hid].
  assert (Hempty : filter (inDepartment (id (department view))) (employeeDepartments db) = ∅).
  { apply map_empty. intros key. apply map_lookup_filter_None. right.
    intros row Hrow. rewrite Hid. by apply no_member_of_fresh. }
  unfold getDepartmentById, department_findUnique, getAllDepartmentsInfo, department_findMany,
    getTotalEmployeeCount, employeeDepartment_count, employeeCostDecimal,
    employeeDepartment_findMany. simpl.
  split_and!.
  - done.
  - apply lookup_insert_eq.
  - intros other found Hother. rewrite lookup_insert_ne; [done|]. congruence.
  - change (department view :: ?l.*2) with (((id (department view), department view) :: l).*2).
    by apply fmap_Permutation, map_to_list_insert.
  - by rewrite Hempty, map_size_empty.
  - by rewrite Hempty, map_to_list_empty.
Qed.

(** X13. Creating a department and deleting it again, both by an
    administrator, returns the department just created and restores the
    datastore exactly.  (The new department has no members, so nothing
    depends on what a deletion does to memberships.) *)
Theorem create_then_delete db userId name info :
  user_role <$> users db !! userId = Some UserRole.ADMIN →
  consistent db →
  ∃ view db',
    createDepartment userId name info db = (Returned view, db') ∧
    deleteDepartment userId (id (department view)) db' = (Returned (department view), db).
Proof.
  intros Hrole Hc. destruct (createDepartment_admin db userId name info Hrole)
    as (view & Hcreate & Hfresh & _).
  exists view. eexists. split; [exact Hcreate|].
  assert (Hid : id (department view) = fresh (dom (departments db))).
  { revert Hcreate. unfold createDepartment, department_create.
    repeat case_match; intros [= <- _]; done. }
  unfold deleteDepartment, user_findUnique, department_delete. simpl.
  destruct (users db !! userId) as [user|]; [|done]. injection Hrole as Hrole.
  rewrite decide_True by done. rewrite lookup_insert_eq.
  rewrite delete_insert_id by done.
  rewrite map_filter_id; [by rewrite store_eta|].
  intros key row Hrow. rewrite Hid. by apply no_member_of_fresh.
Qed.

End MoreFacts.


(** ** The theorems at the scenario *)

(** A holds the role [ADMIN] within Sales and is not a global
    administrator. *)
Lemma member_management_denied_witness :
  (∀ name, updateDepartment "a" "sales" name salesAdminStore =
           (Null PermissionDenied, salesAdminStore)) ∧
  (∀ employeeId role,
     updateEmployeeRole "a" "sales" employeeId role salesAdminStore =
     (Null PermissionDenied, salesAdminStore)) ∧
  (∀ employeeId role rate position,
     addEmployeeToDepartment quotientToNumber integerToDecimal
       "a" "sales" employeeId role rate position salesAdminStore =
     (Null PermissionDenied, salesAdminStore)).
Proof.
  apply (member_management_denied quotientToNumber integerToDecimal salesAdminStore
           "a" "sales").
  - vm_compute. discriminate.
  - vm_compute. discriminate.
Defined.

Lemma updateDepartment_renames_witness :
  ∃ db',
    updateDepartment "b" "sales" "Retail" salesStore =
      (Returned (mkDepartment "sales" "Retail" None), db') ∧
    getDepartmentById "sales" db' = Some (mkDepartment "sales" "Retail" None) ∧
    employeeDepartments db' = employeeDepartments salesStore.
Proof.
  destruct (updateDepartment_renames salesStore "b" "sales" "Retail"
              (mkUser UserRole.USER) sales)
    as (db' & Hcall & Hread & _ & _ & Hrows & _).
  - reflexivity.
  - right. reflexivity.
  - reflexivity.
  - exists db'. split_and!; assumption.
Defined.

Lemma updateEmployeeRole_role_only_witness :
  ∃ db',
    updateEmployeeRole "b" "sales" "a" EmployeeDepartmentRole.MANAGER salesStore =
      (Returned (mkEmployeeDepartment EmployeeDepartmentRole.MANAGER (Q2Qc 20) "clerk"), db') ∧
    getTotalEmployeeCount "sales" db' = getTotalEmployeeCount "sales" salesStore ∧
    getEmployeeCost quotientToNumber "sales" db' =
      getEmployeeCost quotientToNumber "sales" salesStore.
Proof.
  pose proof (updateEmployeeRole_role_only quotientToNumber salesStore "b" "sales" "a"
                EmployeeDepartmentRole.MANAGER (mkUser UserRole.USER)) as H.
  change (employeeDepartments salesStore !! ("a", "sales")) with
    (Some (mkEmployeeDepartment EmployeeDepartmentRole.MEMBER (Q2Qc 20) "clerk")) in H.
  destruct H as (db' & Hcall & _ & _ & _ & Hrollups).
  - reflexivity.
  - right. reflexivity.
  - exists db'. split; [exact Hcall|]. apply Hrollups.
Defined.

Lemma removeEmployee_rollups_witness :
  ∃ view db',
    removeEmployeeFromDepartment quotientToNumber "b" "sales" "a" salesStore =
      (Returned view, db') ∧
    S (getTotalEmployeeCount "sales" db') = getTotalEmployeeCount "sales" salesStore ∧
    employeeCostDecimal "sales" db' = (employeeCostDecimal "sales" salesStore - Q2Qc 20)%Qc.
Proof.
  destruct (removeEmployee_rollups quotientToNumber salesStore "b" "sales" "a"
              (mkUser UserRole.USER)
              (mkEmployeeDepartment EmployeeDepartmentRole.MEMBER (Q2Qc 20) "clerk") sales)
    as (view & db' & Hcall & _ & _ & _ & Hcount & Hcost & _).
  - reflexivity.
  - reflexivity.
  - reflexivity.
  - reflexivity.
  - exists view, db'. split_and!; assumption.
Defined.

(** C is a user without any membership: the calls are denied. *)
Lemma failed_calls_write_nothing_witness :
  consistent salesStore ∧
  ∀ db', updateDepartment "c" "sales" "Retail" salesStore = (Null PermissionDenied, db') →
         db' = salesStore.
Proof.
  assert (consistent salesStore) as Hdb by (apply (bool_decide_unpack _); vm_compute; reflexivity).
  split; [exact Hdb|]. intros db'.
  apply (failed_calls_write_nothing quotientToNumber integerToDecimal
           salesStore PermissionDenied db' Hdb).
Defined.

Lemma operations_keep_integrity_witness :
  consistent (addEmployeeToDepartment quotientToNumber integerToDecimal
                "admin" "sales" "c" EmployeeDepartmentRole.MEMBER (Number.ofZ 10) "temp"
                salesStore).2 ∧
  keyed (createDepartment "admin" "Support" None salesStore).2.
Proof.
  assert (consistent salesStore) as Hdb by (apply (bool_decide_unpack _); vm_compute; reflexivity).
  assert (keyed salesStore) as Hkeys by (apply (bool_decide_unpack _); vm_compute; reflexivity).
  pose proof (operations_keep_integrity quotientToNumber integerToDecimal salesStore
                Hdb Hkeys) as (Hcreate & _ & _ & Hadd & _).
  split.
  - apply (Hadd "admin" "sales" "c" EmployeeDepartmentRole.MEMBER (Number.ofZ 10) "temp").
  - apply (Hcreate "admin" "Support" None).
Defined.

(** B manages Sales; A is a plain member of it. *)
Lemma permitted_departments_listed_witness :
  sales ∈ getUserPermittedDepartmentsInfo (Some UserRole.USER) "b" salesStore ∧
  sales ∉ getUserPermittedDepartmentsInfo (Some UserRole.USER) "a" salesStore.
Proof.
  assert (keyed salesStore) as Hkeys by (apply (bool_decide_unpack _); vm_compute; reflexivity).
  split.
  - apply (permitted_departments_listed quotientToNumber (Some UserRole.USER) "b"
             salesStore sales Hkeys).
    split; [reflexivity|]. right. eexists. split; [reflexivity|]. left. reflexivity.
  - intros Hin.
    apply (permitted_departments_listed quotientToNumber (Some UserRole.USER) "a"
             salesStore sales Hkeys) in Hin as [_ [Hadmin | (row & Hrow & Hrole)]].
    + discriminate.
    + injection Hrow as <-. destruct Hrole; discriminate.
Defined.

Lemma member_departments_listed_witness :
  {| department := sales;
     employeeCount := 2;
     totalCost := getEmployeeCost quotientToNumber "sales" salesStore |}
  ∈ getEmployessByDepartmentIds quotientToNumber (Some UserRole.USER) "a" salesStore.
Proof.
  apply (member_departments_listed quotientToNumber (Some UserRole.USER) "a" salesStore).
  - apply (bool_decide_unpack _). vm_compute. reflexivity.
  - split_and!; try reflexivity. right. eexists. reflexivity.
Defined.

Lemma getAllDepartments_counts_witness :
  sum_list (employeeCount <$> getAllDepartments quotientToNumber salesStore) = 2%nat ∧
  length (getAllDepartments quotientToNumber salesStore) = 1%nat.
Proof.
  apply (getAllDepartments_counts quotientToNumber salesStore).
  - apply (bool_decide_unpack _). vm_compute. reflexivity.
  - apply (bool_decide_unpack _). vm_compute. reflexivity.
Defined.

Lemma addEmployeeToDepartment_idempotent_witness :
  ∃ view db1,
    addEmployeeToDepartment quotientToNumber integerToDecimal
      "b" "sales" "c" EmployeeDepartmentRole.MEMBER (Number.ofZ 10) "temp" salesStore =
      (Returned view, db1) ∧
    addEmployeeToDepartment quotientToNumber integerToDecimal
      "b" "sales" "c" EmployeeDepartmentRole.MEMBER (Number.ofZ 10) "temp" db1 =
      (Returned view, db1).
Proof.
  apply (addEmployeeToDepartment_idempotent quotientToNumber integerToDecimal salesStore
           "b" "sales" "c" EmployeeDepartmentRole.MEMBER (Number.ofZ 10) "temp"
           (mkUser UserRole.USER) sales).
  - reflexivity.
  - right. split; [discriminate | reflexivity].
  - reflexivity.
  - eexists. reflexivity.
Defined.

Lemma manager_can_demote_self_witness :
  ∃ view db1,
    addEmployeeToDepartment quotientToNumber integerToDecimal
      "b" "sales" "b" EmployeeDepartmentRole.MEMBER (Number.ofZ 15) "lead" salesStore =
      (Returned view, db1) ∧
    employeeDepartments db1 !! ("b", "sales") =
      Some (mkEmployeeDepartment EmployeeDepartmentRole.MEMBER
              (integerToDecimal (Number.ofZ 15)) "lead") ∧
    addEmployeeToDepartment quotientToNumber integerToDecimal
      "b" "sales" "b" EmployeeDepartmentRole.MEMBER (Number.ofZ 15) "lead" db1 =
      (Null PermissionDenied, db1) ∧
    ∀ name, updateDepartment "b" "sales" name db1 = (Null PermissionDenied, db1).
Proof.
  apply (manager_can_demote_self quotientToNumber integerToDecimal salesStore
           "b" "sales" EmployeeDepartmentRole.MEMBER (Number.ofZ 15) "lead"
           (mkUser UserRole.USER)
           (mkEmployeeDepartment EmployeeDepartmentRole.MANAGER (Q2Qc 15) "lead") sales).
  - reflexivity.
  - discriminate.
  - reflexivity.
  - reflexivity.
  - discriminate.
  - reflexivity.
Defined.

Lemma createDepartment_adds_one_witness :
  ∃ view db',
    createDepartment "admin" "Support" None salesStore = (Returned view, db') ∧
    getDepartmentById (id (department view)) salesStore = None ∧
    getDepartmentById (id (department view)) db' = Some (department view) ∧
    getDepartmentById "sales" db' = Some sales.
Proof.
  destruct (createDepartment_adds_one salesStore "admin" "Support" None)
    as (view & db' & Hcall & Hnew & Hread & Hold & _).
  - reflexivity.
  - apply (bool_decide_unpack _). vm_compute. reflexivity.
  - exists view, db'. split_and!; try assumption. apply Hold. reflexivity.
Defined.

Lemma create_then_delete_witness :
  ∃ view db',
    createDepartment "admin" "Support" None salesStore = (Returned view, db') ∧
    deleteDepartment "admin" (id (department view)) db' =
      (Returned (department view), salesStore).
Proof.
  apply (create_then_delete salesStore "admin" "Support" None).
  - reflexivity.
  - apply (bool_decide_unpack _). vm_compute. reflexivity.
Defined.

End DepartmentServiceMore.

(* ===================================================================== *)
(** * More on the schedule view *)
(* ===================================================================== *)

Module ScheduleViewMore.
Import ScheduleView ScheduleViewFacts.

Lemma hasConflict_true ss :
  hasConflict (checkScheduleConflicts ss) = true ↔
  ∃ c, c ∈ conflicts (checkScheduleConflicts ss).
Proof.
  unfold checkScheduleConflicts. cbn [hasConflict conflicts].
  destruct (mjoin _) as [|c l]; simpl.
  - split; [done|]. intros [c Hc]. inversion Hc.
  - split; [|done]. intros _. exists c. left.
Qed.

(** Which unordered pairs of shifts are reported, without reference to the
    order of the input. *)
Lemma reported_iff ss a b :
  (∃ c, c ∈ conflicts (checkScheduleConflicts ss) ∧ reportsPair a b c) ↔
  ∃ schedule1 schedule2,
    schedule1 ∈ ss ∧ schedule2 ∈ ss ∧
    department_id (department schedule1) ≠ department_id (department schedule2) ∧
    a ∈ schedules schedule1 ∧ b ∈ schedules schedule2 ∧ conflicting a b = true.
Proof.
  split.
  - intros (c & Hc & Hpair). apply elem_of_conflicts in Hc
      as (i & j & s1 & s2 & x & y & Hij & Hi & Hj & Hid & Hx & Hy & Hxy & ->).
    apply list_elem_of_lookup_2 in Hi, Hj.
    destruct Hpair as [[<- <-] | [<- <-]]; simpl.
    + by exists s1, s2.
    + exists s2, s1. rewrite conflicting_sym. split_and!; try done; congruence.
  - intros (s1 & s2 & Hs1 & Hs2 & Hid & Ha & Hb & Hab).
    apply list_elem_of_lookup_1 in Hs1 as [i Hi].
    apply list_elem_of_lookup_1 in Hs2 as [j Hj].
    assert (i ≠ j) as Hij by (intros ->; congruence).
    destruct (decide (i < j)%nat) as [Hlt|Hge].
    + eexists. split.
      * apply elem_of_conflicts. by exists i, j, s1, s2, a, b.
      * by left.
    + eexists. split.
      * apply elem_of_conflicts. exists j, i, s2, s1, b, a.
        rewrite conflicting_sym. split_and!; try done; try lia; congruence.
      * by right.
Qed.

(** X14. The detector misses no real conflict: two shifts on the same
    day of the week whose time intervals share more than an instant, in
    schedules of different departments, are reported, whatever the order of
    the schedules in the input, and [hasConflict] is then [true]. *)
Theorem overlapping_shifts_detected ss schedule1 schedule2 a b :
  schedule1 ∈ ss → schedule2 ∈ ss →
  department_id (department schedule1) ≠ department_id (department schedule2) →
  a ∈ schedules schedule1 → b ∈ schedules schedule2 →
  dayOfWeek a = dayOfWeek b →
  strictOverlap (startTime a) (endTime a) (startTime b) (endTime b) = true →
  hasConflict (checkScheduleConflicts ss) = true ∧
  ∃ c, c ∈ conflicts (checkScheduleConflicts ss) ∧ reportsPair a b c.
Proof.
  intros Hs1 Hs2 Hid Ha Hb Hday Hover.
  assert (∃ c, c ∈ conflicts (checkScheduleConflicts ss) ∧ reportsPair a b c)
    as (c & Hc & Hpair).
  { apply reported_iff. exists schedule1, schedule2. split_and!; try done.
    unfold conflicting. apply andb_true_iff. split.
    - by apply Z.eqb_eq.
    - by apply strictOverlap_hasOverlap. }
  split; [|by exists c]. apply hasConflict_true. by exists c.
Qed.

(** X15. The order of the schedules in the input does not matter:
    [hasConflict], and the set of unordered pairs of shifts that are
    reported, are the same for any reordering of the input. *)
Theorem conflicts_order_independent ss ss' :
  ss ≡ₚ ss' →
  hasConflict (checkScheduleConflicts ss) = hasConflict (checkScheduleConflicts ss') ∧
  ∀ a b,
    (∃ c, c ∈ conflicts (checkScheduleConflicts ss) ∧ reportsPair a b c) ↔
    (∃ c, c ∈ conflicts (checkScheduleConflicts ss') ∧ reportsPair a b c).
Proof.
  intros Hperm.
  assert (∀ a b,
    (∃ c, c ∈ conflicts (checkScheduleConflicts ss) ∧ reportsPair a b c) ↔
    (∃ c, c ∈ conflicts (checkScheduleConflicts ss') ∧ reportsPair a b c)) as Hsame.
  { intros a b. rewrite !reported_iff.
    by setoid_rewrite Hperm. }
  split; [|done].
  assert (∀ l l', (∀ a b,
    (∃ c, c ∈ conflicts (checkScheduleConflicts l) ∧ reportsPair a b c) →
    (∃ c, c ∈ conflicts (checkScheduleConflicts l') ∧ reportsPair a b c)) →
    hasConflict (checkScheduleConflicts l) = true →
    hasConflict (checkScheduleConflicts l') = true) as Himp.
  { intros l l' H [c Hc]%hasConflict_true.
    destruct (H (shift (shift1 c)) (shift (shift2 c))) as (c' & Hc' & _).
    - exists c. split; [done|]. by left.
    - apply hasConflict_true. by exists c'. }
  destruct (hasConflict (checkScheduleConflicts ss)) eqn:H1,
           (hasConflict (checkScheduleConflicts ss')) eqn:H2; try done.
  - rewrite (Himp ss ss') in H2; [done| |done]. intros a b. by apply Hsame.
  - rewrite (Himp ss' ss) in H1; [done| |done]. intros a b. by apply Hsame.
Qed.

(** X16. When all schedules of the input belong to one department, in
    particular for no schedule or for a single one, nothing is reported and
    [hasConflict] is [false], however the shifts overlap. *)
Theorem one_department_no_conflicts ss :
  (∀ schedule1 schedule2, schedule1 ∈ ss → schedule2 ∈ ss →
     department_id (department schedule1) = department_id (department schedule2)) →
  checkScheduleConflicts ss = {| hasConflict := false; conflicts := [] |}.
Proof.
  intros Hsame.
  assert (conflicts (checkScheduleConflicts ss) = []) as Hnil.
  { destruct (conflicts (checkScheduleConflicts ss)) as [|c l] eqn:Hout; [done|].
    assert (c ∈ conflicts (checkScheduleConflicts ss)) as Hc by (rewrite Hout; left).
    apply elem_of_conflicts in Hc
      as (i & j & s1 & s2 & x & y & Hij & Hi & Hj & Hid & _).
    apply list_elem_of_lookup_2 in Hi, Hj. exfalso. by apply Hid, Hsame. }
  unfold checkScheduleConflicts in *. cbn [conflicts] in Hnil. by rewrite Hnil.
Qed.

(** ** Grouping by department *)

Section GroupingFacts.
Variable inherited : string → bool.

Local Abbreviation ofDepartment dept :=
  (filter (fun schedule : ScheduleWithDepartment =>
             department_id (department schedule) = dept)).

Lemma schedulesByDepartment_snoc ss schedule :
  schedulesByDepartment inherited (ss ++ [schedule]) =
  schedulesByDepartment inherited ss ≫= fun acc => groupSchedule inherited acc schedule.
Proof. unfold schedulesByDepartment. by rewrite foldl_snoc. Qed.

(** The grouping throws exactly when some department id is an inherited
    name; otherwise the entry of an id is the list of the schedules of that
    department, when there is one. *)
Lemma schedulesByDepartment_spec ss :
  match schedulesByDepartment inherited ss with
  | None =>
      ∃ schedule, schedule ∈ ss ∧ inherited (department_id (department schedule)) = true
  | Some groups =>
      (∀ schedule, schedule ∈ ss →
         inherited (department_id (department schedule)) = false) ∧
      ∀ dept, groups !! dept =
              match ofDepartment dept ss with [] => None | group => Some group end
  end.
Proof.
  induction ss as [|schedule ss IH] using rev_ind.
  { simpl. split; [by intros schedule Hin%elem_of_nil | done]. }
  rewrite schedulesByDepartment_snoc.
  destruct (schedulesByDepartment inherited ss) as [groups|]; simpl.
  - destruct IH as [Hnames Hgroups]. unfold groupSchedule.
    set (dept := department_id (department schedule)).
    assert (Hfilter : ∀ key, ofDepartment key (ss ++ [schedule]) =
              ofDepartment key ss ++ (if decide (dept = key) then [schedule] else [])).
    { intros key. rewrite filter_app, filter_cons, filter_nil. done. }
    destruct (groups !! dept) as [group|] eqn:Hdept.
    + rewrite Hgroups in Hdept.
      destruct (ofDepartment dept ss) as [|first rest] eqn:Hfirst; [done|].
      injection Hdept as <-.
      assert (first ∈ ofDepartment dept ss) as Hin by (rewrite Hfirst; left).
      apply list_elem_of_filter in Hin as [Hid Hin].
      split.
      * intros other [Hother | ->%list_elem_of_singleton]%elem_of_app; [by apply Hnames|].
        fold dept. rewrite <- Hid. by apply Hnames.
      * intros key. rewrite Hfilter, lookup_insert. case_decide as Hkey.
        -- subst key. by rewrite Hfirst.
        -- by rewrite Hgroups, app_nil_r.
    + destruct (inherited dept) eqn:Hname.
      * exists schedule. split; [|done]. apply elem_of_app. right. left.
      * split.
        -- intros other [Hother | ->%list_elem_of_singleton]%elem_of_app;
             [by apply Hnames | done].
        -- intros key. rewrite Hfilter, lookup_insert. case_decide as Hkey.
           ++ subst key. rewrite Hgroups in Hdept.
              by destruct (ofDepartment dept ss).
           ++ by rewrite Hgroups, app_nil_r.
  - destruct IH as (other & Hin & Hname). exists other. split; [|done].
    apply elem_of_app. by left.
Qed.

(** X17. [schedulesByDepartment] throws exactly when the id of the
    department of some schedule is the name of an inherited property.
    Otherwise it has an entry for a department id exactly when some schedule
    belongs to that department, and the entry holds the schedules of the
    department in input order; every group has a first schedule, which
    belongs to the department of the key, and the label of its tab is the
    name of the department of that schedule, or "Unknown Department" when
    that name is empty; the object has no key exactly when there is no
    schedule. *)
Theorem schedulesByDepartment_groups ss :
  match schedulesByDepartment inherited ss with
  | None =>
      ∃ schedule, schedule ∈ ss ∧ inherited (department_id (department schedule)) = true
  | Some groups =>
      (∀ schedule, schedule ∈ ss →
         inherited (department_id (department schedule)) = false) ∧
      (∀ dept group,
         groups !! dept = Some group ↔ group ≠ [] ∧ group = ofDepartment dept ss) ∧
      (∀ dept group,
         groups !! dept = Some group →
         ∃ first, head group = Some first ∧ first ∈ ss ∧
                  department_id (department first) = dept ∧
                  tabLabel group =
                    if decide (department_name (department first) = "")
                    then "Unknown Department"
                    else department_name (department first)) ∧
      (groups = ∅ ↔ ss = [])
  end.
Proof.
  pose proof (schedulesByDepartment_spec ss) as Hspec.
  destruct (schedulesByDepartment inherited ss) as [groups|]; [|done].
  destruct Hspec as [Hnames Hlookup].
  assert (∀ dept group,
            groups !! dept = Some group ↔ group ≠ [] ∧ group = ofDepartment dept ss)
    as Hgroups.
  { intros dept group. rewrite Hlookup.
    destruct (ofDepartment dept ss) as [|first rest]; [split; [done | by intros [? ->]]|].
    split; [by intros [= <-] | by intros [_ ->]]. }
  split_and!; [done | done | |].
  - intros dept group [Hne ->]%Hgroups.
    destruct (ofDepartment dept ss) as [|first rest] eqn:Hfilter; [done|].
    assert (first ∈ ofDepartment dept ss) as Hfirst by (rewrite Hfilter; left).
    apply list_elem_of_filter in Hfirst as [Hdept Hin].
    exists first. by split_and!.
  - split.
    + intros ->. destruct ss as [|schedule ss]; [done|]. exfalso.
      specialize (Hlookup (department_id (department schedule))).
      rewrite lookup_empty, filter_cons_True in Hlookup by done. done.
    + intros ->. apply map_eq. intros dept. by rewrite Hlookup.
Qed.

End GroupingFacts.

(** A department whose id is the name of an inherited property makes the
    grouping throw, and a department without a name gets the fallback
    label. *)
Example schedulesByDepartment_inherited_name :
  schedulesByDepartment inheritedName
    [mkSchedule [shiftX] dept1; mkSchedule [shiftY] (mkDepartmentRef "constructor" "Dept2")]
  = None.
Proof. vm_compute. reflexivity. Qed.

Example tabLabel_nameless :
  tabLabel [mkSchedule [shiftX] (mkDepartmentRef "d1" "")] = "Unknown Department".
Proof. reflexivity. Qed.

(** ** The week view *)

Lemma mjoin_day_filters (idxs : list Z) (shifts : list WorkShift) :
  NoDup idxs →
  mjoin ((fun idx : Z => filter (fun s => dayOfWeek s = idx) shifts) <$> idxs)
  ≡ₚ filter (fun s => dayOfWeek s ∈ idxs) shifts.
Proof.
  induction 1 as [|idx idxs Hnotin Hnodup IH]; simpl.
  - induction shifts as [|s shifts IHs]; [done|].
    rewrite filter_cons_False; [done|]. apply not_elem_of_nil.
  - rewrite IH. clear IH. induction shifts as [|s shifts IHs]; [done|].
    rewrite !filter_cons.
    destruct (decide (dayOfWeek s = idx)) as [Heq|Hne],
             (decide (dayOfWeek s ∈ idxs)) as [Hin|Hout],
             (decide (dayOfWeek s ∈ idx :: idxs)) as [Hin'|Hout'];
      simpl;
      try (exfalso;
           first [ by subst | by apply Hout'; rewrite Heq; left | by apply Hout'; right
                 | by apply elem_of_cons in Hin' as [?|?] ]);
      rewrite <- ?Permutation_middle; by rewrite ?IHs.
Qed.

(** X18. The week view of a schedule has seven day cells; together they
    show each shift whose [dayOfWeek] lies between 0 and 6 once, and no shift
    of another [dayOfWeek]; no shift appears in two cells. *)
Theorem weekDays_partition schedule :
  length (weekDays schedule) = 7%nat ∧
  mjoin (weekDays schedule) ≡ₚ
    filter (fun s => 0 ≤ dayOfWeek s ≤ 6) (schedules schedule) ∧
  ∀ (i j : nat) day1 day2 s,
    weekDays schedule !! i = Some day1 → weekDays schedule !! j = Some day2 →
    s ∈ day1 → s ∈ day2 → i = j.
Proof.
  split_and!; [done| |].
  - unfold weekDays. rewrite mjoin_day_filters.
    + erewrite list_filter_iff; [done|]. intros s. simpl.
      rewrite !elem_of_cons, elem_of_nil. lia.
    + apply (bool_decide_unpack _). by vm_compute.
  - intros i j day1 day2 s Hi Hj H1 H2. unfold weekDays in Hi, Hj.
    apply list_lookup_fmap_Some in Hi as (idx1 & -> & Hi).
    apply list_lookup_fmap_Some in Hj as (idx2 & -> & Hj).
    apply list_elem_of_filter in H1 as [H1 _]. apply list_elem_of_filter in H2 as [H2 _].
    assert (idx1 = idx2) as <- by congruence.
    eapply NoDup_lookup; [|exact Hi|exact Hj].
    apply (bool_decide_unpack _). by vm_compute.
Qed.

(** ** The theorems at the scenario *)

(** Shift X of department 1 and shift Y of department 2 share the hour from
    12:00 to 13:00. *)
Lemma overlapping_shifts_detected_witness :
  hasConflict (checkScheduleConflicts
                 [mkSchedule [shiftY; shiftZ] dept2; mkSchedule [shiftX] dept1]) = true ∧
  ∃ c, c ∈ conflicts (checkScheduleConflicts
                        [mkSchedule [shiftY; shiftZ] dept2; mkSchedule [shiftX] dept1]) ∧
       reportsPair shiftX shiftY c.
Proof.
  apply (overlapping_shifts_detected
           [mkSchedule [shiftY; shiftZ] dept2; mkSchedule [shiftX] dept1]
           (mkSchedule [shiftX] dept1) (mkSchedule [shiftY; shiftZ] dept2) shiftX shiftY).
  - right. left.
  - left.
  - discriminate.
  - left.
  - left.
  - reflexivity.
  - reflexivity.
Defined.

Lemma conflicts_order_independent_witness :
  hasConflict (checkScheduleConflicts
                 [mkSchedule [shiftX] dept1; mkSchedule [shiftY; shiftZ] dept2]) =
  hasConflict (checkScheduleConflicts
                 [mkSchedule [shiftY; shiftZ] dept2; mkSchedule [shiftX] dept1]).
Proof.
  apply (conflicts_order_independent
           [mkSchedule [shiftX] dept1; mkSchedule [shiftY; shiftZ] dept2]
           [mkSchedule [shiftY; shiftZ] dept2; mkSchedule [shiftX] dept1]).
  apply perm_swap.
Defined.

(** Shifts Y and Z of department 2 overlap, in two schedules of that
    department. *)
Lemma one_department_no_conflicts_witness :
  checkScheduleConflicts [mkSchedule [shiftY] dept2; mkSchedule [shiftZ] dept2] =
  {| hasConflict := false; conflicts := [] |}.
Proof.
  apply (one_department_no_conflicts [mkSchedule [shiftY] dept2; mkSchedule [shiftZ] dept2]).
  intros schedule1 schedule2 H1 H2.
  apply elem_of_cons in H1 as [->|H1]; [|apply list_elem_of_singleton in H1 as ->];
    (apply elem_of_cons in H2 as [->|H2]; [|apply list_elem_of_singleton in H2 as ->]);
    reflexivity.
Defined.

End ScheduleViewMore.

(* ===================================================================== *)
(** * More on the time-entry state *)
(* ===================================================================== *)

Module TimeEntryContextMore.
Import TimeEntryContext.

Lemma fmap_replace_absent (timeEntryId : string) (completed : TimeEntry)
    (entries : list TimeEntry) :
  timeEntryId ∉ TimeEntry.id <$> entries →
  (fun entry => if decide (TimeEntry.id entry = timeEntryId) then completed else entry)
    <$> entries = entries.
Proof.
  induction entries as [|entry entries IH]; [done|].
  intros Hnotin. rewrite fmap_cons in Hnotin.
  apply not_elem_of_cons in Hnotin as [Hne Hnotin].
  rewrite fmap_cons, decide_False by done. f_equal. by apply IH.
Qed.

(** X19. Clocking in with an entry whose id is not yet in the list and
    then clocking out with that id leaves nobody clocked in and the list of
    recent entries equal to the old list with one entry in front: the entry
    clocked in, completed with the clock-out time and the hours. *)
Theorem clockIn_then_clockOut entry now st :
  TimeEntry.id entry ∉ TimeEntry.id <$> recentEntries st →
  clockOut (TimeEntry.id entry) now (clockIn entry st) =
  {| currentEntry := None;
     recentEntries :=
       {| TimeEntry.id := TimeEntry.id entry;
          TimeEntry.userId := TimeEntry.userId entry;
          TimeEntry.departmentId := TimeEntry.departmentId entry;
          TimeEntry.clockIn := TimeEntry.clockIn entry;
          TimeEntry.clockOut := Some now;
          TimeEntry.hours :=
            Some (newDecimal (Number.toFixed2
                                (elapsedHours now (TimeEntry.clockIn entry)))) |}
       :: recentEntries st;
     loading := false |}.
Proof.
  intros Hfresh. unfold clockOut, clockIn, addEntry. cbn.
  rewrite decide_True by done. by rewrite fmap_replace_absent.
Qed.

(** X20. [clockOut] always ends with no current entry and [loading]
    false; it never changes the length of the list of recent entries nor an
    entry whose id is not [timeEntryId]; with an id that is not in the list
    the list is unchanged, and with the id of the current entry the ids in
    the list are unchanged. *)
Theorem clockOut_recentEntries timeEntryId now st :
  let st' := clockOut timeEntryId now st in
  currentEntry st' = None ∧ loading st' = false ∧
  length (recentEntries st') = length (recentEntries st) ∧
  (∀ (i : nat) entry, recentEntries st !! i = Some entry →
     TimeEntry.id entry ≠ timeEntryId → recentEntries st' !! i = Some entry) ∧
  (timeEntryId ∉ TimeEntry.id <$> recentEntries st →
     recentEntries st' = recentEntries st) ∧
  (∀ current, currentEntry st = Some current → TimeEntry.id current = timeEntryId →
     TimeEntry.id <$> recentEntries st' = TimeEntry.id <$> recentEntries st).
Proof.
  unfold clockOut. destruct (currentEntry st) as [current|] eqn:Hcurrent; cbn.
  - split_and!; try done.
    + by rewrite length_fmap.
    + intros i entry Hi Hne. rewrite list_lookup_fmap, Hi. simpl.
      by rewrite decide_False.
    + apply fmap_replace_absent.
    + intros ? [= <-] Hid. rewrite <- list_fmap_compose. apply list_fmap_ext.
      intros i entry _. simpl. case_decide; [|done]. cbn. congruence.
  - by split_and!.
Qed.

(** X21. [departmentMap] maps an id to the last department of the input
    with that id, and has no entry for an id that no department of the input
    carries. *)
Theorem departmentMap_last_wins departments key :
  departmentMap departments !! key =
  last (filter (fun dept => DepartmentService.id dept = key) departments).
Proof.
  induction departments as [|dept departments IH] using rev_ind; [done|].
  unfold departmentMap in *. rewrite foldl_snoc, filter_app, lookup_insert.
  rewrite filter_cons, filter_nil. case_decide as Hid.
  - by rewrite last_snoc.
  - by rewrite app_nil_r.
Qed.

(** ** The theorems at the scenario *)

Lemma clockIn_then_clockOut_witness :
  clockOut "t1" (nineOClock + 3600000) (clockIn openEntry (mkState None [] false)) =
  {| currentEntry := None;
     recentEntries :=
       [ {| TimeEntry.id := "t1"; TimeEntry.userId := "a";
            TimeEntry.departmentId := "sales";
            TimeEntry.clockIn := nineOClock;
            TimeEntry.clockOut := Some (nineOClock + 3600000);
            TimeEntry.hours :=
              Some (newDecimal (Number.toFixed2
                                  (elapsedHours (nineOClock + 3600000) nineOClock))) |} ];
     loading := false |}.
Proof.
  apply (clockIn_then_clockOut openEntry (nineOClock + 3600000) (mkState None [] false)).
  apply not_elem_of_nil.
Defined.

End TimeEntryContextMore.

(* ===================================================================== *)
(** * More on numbers: floor, remainder and comparison of integers *)
(* ===================================================================== *)

Module NumberMore.
Import Number NumberFacts.

Lemma digits_le_53 (p : positive) : Zpos p < 2 ^ 53 → 1 <= Zpos (digits2_pos p) <= 53.
Proof.
  intros Hp. pose proof (digits_bounds p) as [Hlo _]. split; [lia|].
  destruct (Z.le_gt_cases (Zpos (digits2_pos p)) 53); [done|].
  assert (2 ^ 53 <= 2 ^ (Zpos (digits2_pos p) - 1)) by (apply Z.pow_le_mono_r; lia). lia.
Qed.

Lemma ofZ_mantissa (p : positive) m e :
  Zpos p < 2 ^ 53 → ofZ (Zpos p) = S754_finite false m e →
  e = Zpos (digits2_pos p) - 53 ∧ Zpos m = Zpos p * 2 ^ (- e) ∧
  2 ^ 52 <= Zpos m < 2 ^ 53 ∧ -52 <= e <= 0.
Proof.
  intros Hp Hof. destruct (ofZ_pos p Hp) as (m' & Hof' & Hm').
  rewrite Hof' in Hof. injection Hof as -> <-.
  pose proof (digits_le_53 p Hp) as Hd. pose proof (digits_bounds p) as [Hlo Hhi].
  set (d := Zpos (digits2_pos p)) in *.
  replace (- (d - 53)) with (53 - d) by lia.
  split_and!; try (done || lia).
  - rewrite Hm'. replace 52 with ((d - 1) + (53 - d)) by lia.
    rewrite Z.pow_add_r by lia.
    assert (0 < 2 ^ (53 - d)) by (apply Z.pow_pos_nonneg; lia). nia.
  - rewrite Hm'. replace 53 with (d + (53 - d)) at 2 by lia.
    rewrite Z.pow_add_r by lia.
    assert (0 < 2 ^ (53 - d)) by (apply Z.pow_pos_nonneg; lia). nia.
Qed.

(** The quotient of two positive integers below [2^53], at least 2 in the
    denominator: the result is within half a unit in the last place of the
    exact quotient. *)
Lemma div_ofZ (a b : positive) :
  Zpos a < 2 ^ 53 → 2 <= Zpos b < 2 ^ 53 →
  ∃ m e, div (ofZ (Zpos a)) (ofZ (Zpos b)) = S754_finite false m e ∧
         2 ^ 52 <= Zpos m < 2 ^ 53 ∧ -107 <= e <= 0 ∧
         2 * Z.abs (Zpos b * Zpos m - Zpos a * 2 ^ (- e)) <= Zpos b.
Proof.
  intros Ha Hb.
  destruct (ofZ_pos a Ha) as (mx & Hofa & _).
  destruct (ofZ_pos b ltac:(lia)) as (my & Hofb & _).
  destruct (ofZ_mantissa a _ _ Ha Hofa) as (_ & Hmx & Hmx53 & Hex).
  destruct (ofZ_mantissa b _ _ ltac:(lia) Hofb) as (_ & Hmy & Hmy53 & Hey).
  rewrite Hofa, Hofb.
  pose proof (digits_bounds b) as [Hblo Hbhi].
  set (da := Zpos (digits2_pos a)) in *. set (db := Zpos (digits2_pos b)) in *.
  assert (Hdb : 2 <= db).
  { destruct (Z.le_gt_cases 2 db); [done|]. exfalso.
    assert (2 ^ db <= 2 ^ 1) by (apply Z.pow_le_mono_r; lia). lia. }
  destruct (div_finite mx (da - 53) my (db - 53))
    as (m & e & -> & Hm & He & Hbound); try lia.
  { apply digits_unique. lia. }
  { apply digits_unique. lia. }
  exists m, e.
  set (e0 := da - 53 - (db - 53) - 53) in *.
  split_and!; try (done || lia).
  replace (- (da - 53)) with (53 - da) in Hmx by lia.
  replace (- (db - 53)) with (53 - db) in Hmy by lia.
  set (k := 2 ^ (53 - db) * 2 ^ (e - e0)).
  assert (Hk : 0 < k).
  { apply Z.mul_pos_pos; apply Z.pow_pos_nonneg; lia. }
  assert (HD : 2 ^ (53 - da) * 2 ^ 53 = k * 2 ^ (- e)).
  { unfold k. rewrite <- !Z.pow_add_r by lia. f_equal. lia. }
  rewrite Hmx, Hmy in Hbound.
  replace (Zpos a * 2 ^ (53 - da) * 2 ^ 53) with (k * (Zpos a * 2 ^ (- e))) in Hbound
    by (transitivity (Zpos a * (2 ^ (53 - da) * 2 ^ 53)); [rewrite HD|]; ring).
  replace (Zpos b * 2 ^ (53 - db) * (Zpos m * 2 ^ (e - e0)) - k * (Zpos a * 2 ^ (- e)))
    with (k * (Zpos b * Zpos m - Zpos a * 2 ^ (- e))) in Hbound by (unfold k; ring).
  replace (Zpos b * 2 ^ (53 - db) * 2 ^ (e - e0)) with (k * Zpos b) in Hbound
    by (unfold k; ring).
  rewrite Z.abs_mul, (Z.abs_eq k) in Hbound by lia.
  apply (Z.mul_le_mono_pos_l _ _ k); lia.
Qed.

(** Flooring the quotient computed in numbers gives the integer quotient. *)
Lemma floor_div_ofZ a b :
  0 <= a < 2 ^ 53 - 1 → 2 <= b < 2 ^ 53 →
  floor (div (ofZ a) (ofZ b)) = ofZ (a / b).
Proof.
  intros [Ha0 Ha] Hb. destruct b as [|b|b]; try lia.
  destruct a as [|a|a]; [|clear Ha0|lia].
  { destruct (ofZ_pos b ltac:(lia)) as (my & -> & _). reflexivity. }
  destruct (div_ofZ a b ltac:(lia) Hb) as (m & e & -> & Hm & He & Hbound).
  unfold floor. destruct (Z.leb_spec 0 e) as [He0|He0].
  - assert (e = 0) as -> by lia. change (2 ^ (- 0)) with 1 in Hbound.
    rewrite Z.mul_1_r in Hbound. exfalso.
    assert (Zpos b * 2 ^ 52 <= Zpos b * Zpos m) by (apply Z.mul_le_mono_nonneg_l; lia).
    assert (2 * (2 ^ 53 - 1) <= Zpos b * (2 ^ 53 - 1))
      by (apply Z.mul_le_mono_nonneg_r; lia).
    lia.
  - f_equal. set (D := 2 ^ (- e)) in *.
    assert (HD : 0 < D) by (apply Z.pow_pos_nonneg; lia).
    pose proof (Z.div_mod (Zpos a) (Zpos b) ltac:(lia)) as Hqr.
    pose proof (Z.mod_pos_bound (Zpos a) (Zpos b) ltac:(lia)) as Hr.
    set (q := Zpos a / Zpos b) in *. set (r := Zpos a mod Zpos b) in *.
    assert (0 <= q) by (apply Z.div_pos; lia).
    symmetry. apply (Z.div_unique_pos _ _ q (Zpos m - q * D)); [|lia].
    split.
    + (* q * D <= m *)
      destruct (Z.le_gt_cases (q * D) (Zpos m)) as [|Hlt]; [lia|]. exfalso.
      assert (Zpos m + 1 <= q * D) by lia.
      assert (Zpos b * (Zpos m + 1) <= Zpos b * (q * D)) by (apply Z.mul_le_mono_nonneg_l; lia).
      assert (Zpos a * D = Zpos b * (q * D) + r * D) by (rewrite Hqr; ring).
      assert (0 <= r * D) by nia. lia.
    + (* m < (q + 1) * D *)
      destruct (Z.le_gt_cases ((q + 1) * D) (Zpos m)) as [Hge|]; [|lia]. exfalso.
      assert (Zpos b * ((q + 1) * D) <= Zpos b * Zpos m)
        by (apply Z.mul_le_mono_nonneg_l; lia).
      assert (Zpos a * D = Zpos b * (q * D) + r * D) by (rewrite Hqr; ring).
      assert (r * D <= (Zpos b - 1) * D) by (apply Z.mul_le_mono_nonneg_r; lia).
      assert (H2D : 2 * D <= Zpos b) by lia.
      assert (Zpos b * 2 ^ 52 <= Zpos b * Zpos m) by (apply Z.mul_le_mono_nonneg_l; lia).
      assert (Zpos a * D <= (2 ^ 53 - 2) * D) by (apply Z.mul_le_mono_nonneg_r; lia).
      lia.
Qed.

(** The remainder of two integers is computed exactly. *)
Lemma rem_ofZ a b :
  0 <= a < 2 ^ 53 → 0 < b < 2 ^ 53 → rem (ofZ a) (ofZ b) = ofZ (a mod b).
Proof.
  intros [Ha0 Ha] Hb. destruct b as [|b|b]; try lia.
  destruct (ofZ_pos b ltac:(lia)) as (my & Hofb & _).
  destruct (ofZ_mantissa b _ _ ltac:(lia) Hofb) as (_ & Hmy & _ & Hey).
  rewrite Hofb.
  destruct a as [|a|a]; [reflexivity|clear Ha0|lia].
  destruct (ofZ_pos a Ha) as (mx & Hofa & _).
  destruct (ofZ_mantissa a _ _ Ha Hofa) as (_ & Hmx & _ & Hex).
  rewrite Hofa. unfold rem.
  set (ex := Zpos (digits2_pos a) - 53) in *. set (ey := Zpos (digits2_pos b) - 53) in *.
  set (e := Z.min ex ey).
  assert (He : -52 <= e <= 0) by (unfold e; lia).
  set (K := 2 ^ (- e)).
  assert (HK : 0 < K) by (apply Z.pow_pos_nonneg; lia).
  assert (Hx : Zpos mx * 2 ^ (ex - e) = Zpos a * K).
  { rewrite Hmx, <- Z.mul_assoc, <- Z.pow_add_r by (unfold e; lia).
    unfold K. do 2 f_equal. lia. }
  assert (Hy : Zpos my * 2 ^ (ey - e) = Zpos b * K).
  { rewrite Hmy, <- Z.mul_assoc, <- Z.pow_add_r by (unfold e; lia).
    unfold K. do 2 f_equal. lia. }
  rewrite Hx, Hy, Z.rem_mod_nonneg, Z.mul_mod_distr_r by lia.
  pose proof (Z.mod_pos_bound (Zpos a) (Zpos b) ltac:(lia)) as Hr.
  destruct (Zpos a mod Zpos b) as [|r|r] eqn:Hmod; [reflexivity| |lia].
  destruct (Z.eqb_spec (Zpos r * K) 0) as [|_]; [lia|].
  assert (Hr53 : Zpos r < 2 ^ 53) by lia.
  destruct (ofZ_pos r Hr53) as (m' & -> & Hm').
  pose proof (digits_le_53 r Hr53) as Hd.
  destruct (Zpos r * K) as [|rk|rk] eqn:Hrk; try lia.
  unfold binary_normalize.
  destruct (binary_round_exact false rk r (- e) e) as (m & Hm & Hval); try lia.
  unfold prec, emax. rewrite Hm. f_equal; lia.
Qed.

Lemma gt_ofZ n : 0 <= n < 2 ^ 53 → gt (ofZ n) (ofZ 0) = (0 <? n).
Proof.
  intros [Hn0 Hn]. destruct n as [|n|n]; [reflexivity| |lia].
  by destruct (ofZ_pos n Hn) as (m & -> & _).
Qed.

Lemma milliseconds_per_minute : mul (ofZ 1000) (ofZ 60) = ofZ 60000.
Proof. vm_compute. reflexivity. Qed.

End NumberMore.

(* ===================================================================== *)
(** * The duration shown for a shift *)
(* ===================================================================== *)

Module DayScheduleFacts.
Import ScheduleView Number NumberFacts NumberMore DaySchedule.

Lemma append_nonempty (text unit : string) : unit ≠ "" → text +:+ unit ≠ "".
Proof. intros Hunit. destruct text; [done|]. simpl. discriminate. Qed.

Lemma append_assoc (x y z : string) : (x +:+ y) +:+ z = x +:+ y +:+ z.
Proof.
  induction x as [|c x IH]; [done|].
  change (String c ((x +:+ y) +:+ z) = String c (x +:+ y +:+ z)). by rewrite IH.
Qed.

(** X22. For a shift that starts at or after the epoch, ends no earlier
    than it starts and within the range of [Date], the tooltip shows the
    whole hours of the duration followed by "h" and the whole minutes left
    over (fewer than 60) followed by "m", separated by a space, leaving out
    a part that is zero; seconds and milliseconds are dropped, and a
    duration under a minute is shown as "0m".  The computation in numbers
    agrees with integer division. *)
Theorem shiftDuration_hours_minutes (toString : number → string) (shift : WorkShift) :
  0 <= startTime shift <= endTime shift → endTime shift <= 8640000000000000 →
  let diff := endTime shift - startTime shift in
  let hours := diff / 3600000 in
  let minutes := diff mod 3600000 / 60000 in
  0 <= hours ∧ 0 <= minutes < 60 ∧
  shiftDuration toString shift =
    match 0 <? hours, 0 <? minutes with
    | true, true => toString (ofZ hours) +:+ "h" +:+ " " +:+ toString (ofZ minutes) +:+ "m"
    | true, false => toString (ofZ hours) +:+ "h"
    | false, true => toString (ofZ minutes) +:+ "m"
    | false, false => "0m"
    end.
Proof.
  intros Hstart Hend diff hours minutes.
  assert (Hdiff : 0 <= diff <= 8640000000000000) by (unfold diff; lia).
  pose proof (Z.mod_pos_bound diff 3600000 ltac:(lia)) as Hrem.
  assert (Hhours : 0 <= hours <= diff).
  { unfold hours. split; [apply Z.div_pos; lia|].
    apply Z.div_le_upper_bound; lia. }
  assert (Hminutes : 0 <= minutes < 60).
  { unfold minutes. split; [apply Z.div_pos; lia|].
    apply Z.div_lt_upper_bound; lia. }
  split_and!; [lia|lia|lia|].
  unfold shiftDuration.
  rewrite milliseconds_per_hour, milliseconds_per_minute.
  rewrite sub_ofZ by lia. fold diff.
  rewrite floor_div_ofZ by lia. fold hours.
  rewrite rem_ofZ by lia.
  rewrite floor_div_ofZ by lia. fold minutes.
  rewrite !gt_ofZ by lia.
  destruct (0 <? hours), (0 <? minutes).
  - rewrite filter_cons_True by (by apply append_nonempty).
    rewrite filter_cons_True by (by apply append_nonempty).
    rewrite filter_nil. cbn [join].
    rewrite decide_False.
    + by rewrite append_assoc.
    + rewrite append_assoc. apply append_nonempty. by destruct (toString (ofZ minutes)).
  - rewrite filter_cons_True by (by apply append_nonempty).
    rewrite filter_cons_False by (by intros H). rewrite filter_nil. cbn [join].
    rewrite decide_False; [done|]. by apply append_nonempty.
  - rewrite filter_cons_False by (by intros H).
    rewrite filter_cons_True by (by apply append_nonempty).
    rewrite filter_nil. cbn [join].
    rewrite decide_False; [done|]. by apply append_nonempty.
  - rewrite filter_cons_False by (by intros H).
    rewrite filter_cons_False by (by intros H). rewrite filter_nil. reflexivity.
Qed.

(** Shift X lasts from 09:00 to 13:00. *)
Lemma shiftDuration_hours_minutes_witness :
  shiftDuration integerToString shiftX = "4h".
Proof.
  destruct (shiftDuration_hours_minutes integerToString shiftX) as (_ & _ & ->).
  - vm_compute. split; discriminate.
  - vm_compute. discriminate.
  - vm_compute. reflexivity.
Defined.

End DayScheduleFacts.
